(** * protoc-gen-namer: the Swift naming algorithm of [main.go]

    A shallow embedding of the name mapper of [src/main.go] and the
    properties of its sanitizer, prefix deriver, CamelCase transformer,
    resolver and emitter.

    Strings.  A Go string is modelled by the sequence of runes that
    [for _, c := range s] iterates over and that [string([]rune)] builds
    (type [gostring]); for a string that is valid UTF-8 the two determine
    each other.  The byte-oriented operations of the source are tests for
    emptiness ([len(s) == 0], [result.Len() == 0]) and
    [strings.HasSuffix] and slicing with the ASCII suffixes [Message],
    [Enum] and [Oneof], for which counting runes and counting bytes
    agree. *)

From Stdlib Require Import String Ascii DecimalString DecimalZ.
From Stdlib Require Import ZArith List Bool Lia.
Import ListNotations.
Local Open Scope Z_scope.

(** ** Runes and strings *)

Definition rune : Type := Z.
Definition gostring : Type := list rune.

(** A string literal of the source, as its runes (ASCII literals only). *)
Definition go (s : string) : gostring :=
  map (fun a => Z.of_N (N_of_ascii a)) (list_ascii_of_string s).

Fixpoint eqb_runes (a b : gostring) : bool :=
  match a, b with
  | [], [] => true
  | x :: a', y :: b' => (x =? y) && eqb_runes a' b'
  | _, _ => false
  end.

Definition is_empty (s : gostring) : bool :=
  match s with [] => true | _ => false end.

(** [fmt]'s [%d] verb on a rune. *)
Definition decimal (n : Z) : gostring :=
  go (NilZero.string_of_int (Z.to_int n)).

(** [strings.HasSuffix(s, suffix)]:
    [len(s) >= len(suffix) && s[len(s)-len(suffix):] == suffix]. *)
Definition HasSuffix (s suffix : gostring) : bool :=
  (length suffix <=? length s)%nat
  && eqb_runes (skipn (length s - length suffix) s) suffix.

(** ** The reserved-word table (lines 361-423)

    [reservedNames] is a [map[string]bool] used as a set; [init] adds the
    five keyword slices to the literal before [main] runs.  The table below
    is the map after [init]. *)

Definition reservedNames_literal : list string :=
  [ "SwiftProtobuf"; "Extensions"; "protoMessageName"; "decodeMessage";
    "traverse"; "isInitialized"; "unknownFields"; "debugDescription";
    "description"; "dynamicType"; "hashValue"; "Type"; "Protocol" ]%string.

Definition swiftKeywordsUsedInDeclarations : list string :=
  [ "associatedtype"; "class"; "deinit"; "enum"; "extension";
    "fileprivate"; "func"; "import"; "init"; "inout"; "internal";
    "let"; "open"; "operator"; "private"; "protocol"; "public";
    "static"; "struct"; "subscript"; "typealias"; "var" ]%string.

Definition swiftKeywordsUsedInStatements : list string :=
  [ "break"; "case";
    "continue"; "default"; "defer"; "do"; "else"; "fallthrough";
    "for"; "guard"; "if"; "in"; "repeat"; "return"; "switch"; "where";
    "while" ]%string.

Definition swiftKeywordsUsedInExpressionsAndTypes : list string :=
  [ "as";
    "Any"; "catch"; "false"; "is"; "nil"; "rethrows"; "super"; "self";
    "Self"; "throw"; "throws"; "true"; "try" ]%string.

Definition swiftCommonTypes : list string :=
  [ "Bool"; "Data"; "Double"; "Float"; "Int";
    "Int32"; "Int64"; "String"; "UInt"; "UInt32"; "UInt64" ]%string.

Definition swiftSpecialVariables : list string :=
  [ "__COLUMN__";
    "__FILE__"; "__FUNCTION__"; "__LINE__" ]%string.

Definition reservedNames : list gostring :=
  map go (reservedNames_literal
          ++ swiftKeywordsUsedInDeclarations
          ++ swiftKeywordsUsedInStatements
          ++ swiftKeywordsUsedInExpressionsAndTypes
          ++ swiftCommonTypes
          ++ swiftSpecialVariables).

(** [_, ok := reservedNames[name]]. *)
Definition is_reserved (name : gostring) : bool :=
  existsb (eqb_runes name) reservedNames.

(** ** The sanitizer (lines 111-144) *)

Definition underscore_rune : rune := 95.

Definition isAllUnderscore (name : gostring) : bool :=
  match name with
  | [] => false
  | _ => forallb (fun s => s =? underscore_rune) name
  end.

(** [name[:len(name)-len(disambiguator)]]. *)
Definition strip_suffix (name disambiguator : gostring) : gostring :=
  firstn (length name - length disambiguator) name.

(** [sanitizeTypeName] is recursive on a shortened string, not on a
    sub-term; the recursion is driven by [fuel], one unit per call, and
    [None] means the calls did not finish within it. *)
Fixpoint sanitizeTypeName_rec (fuel : nat) (name disambiguator : gostring)
  : option gostring :=
  match fuel with
  | O => None
  | S fuel' =>
      if is_reserved name then Some (name ++ disambiguator)
      else if isAllUnderscore name then Some (name ++ disambiguator)
      else if HasSuffix name disambiguator then
        match sanitizeTypeName_rec fuel' (strip_suffix name disambiguator)
                                   disambiguator with
        | Some r => Some (r ++ disambiguator)
        | None => None
        end
      else Some name
  end.

(** One unit of fuel per rune of the name, and one for the last call. *)
Definition sanitizeTypeName (name disambiguator : gostring) : option gostring :=
  sanitizeTypeName_rec (S (length name)) name disambiguator.

(** The three entry points pass a literal, non-empty disambiguator, for
    which [sanitizeTypeName] always returns (lemma [sanitizeTypeName_total]
    below); the [None] branch is the name itself and is never taken. *)
Definition returned (name : gostring) (r : option gostring) : gostring :=
  match r with Some s => s | None => name end.

Definition sanitizeMessage (name : gostring) : gostring :=
  returned name (sanitizeTypeName name (go "Message")).

Definition sanitizeEnum (name : gostring) : gostring :=
  returned name (sanitizeTypeName name (go "Enum")).

Definition sanitizeOneof (name : gostring) : gostring :=
  returned name (sanitizeTypeName name (go "Oneof")).

(** The entity kinds of the spec, each bound to the suffix of its name. *)
Inductive EntityKind : Type := Message | Enum | Oneof.

Definition disambiguator (k : EntityKind) : gostring :=
  match k with
  | Message => go "Message"
  | Enum => go "Enum"
  | Oneof => go "Oneof"
  end.

Definition sanitize (k : EntityKind) (name : gostring) : gostring :=
  match k with
  | Message => sanitizeMessage name
  | Enum => sanitizeEnum name
  | Oneof => sanitizeOneof name
  end.

(** ** Go's [unicode] package

    [unicode.ToUpper], [unicode.ToLower] and [unicode.IsNumber] belong to
    the Go standard library.  Their ASCII rows are written out below, as
    [unicode/letter.go] and [unicode/graphic.go] special-case them; what
    they answer above U+007F is read from the library's tables, which the
    development takes as the class [Unicode]. *)

Class Unicode : Type := {
  ToUpper_table : rune -> rune;
  ToLower_table : rune -> rune;
  IsNumber_table : rune -> bool
}.

Definition MaxASCII : rune := 0x7F.

Definition in_range (lo hi c : rune) : bool := (lo <=? c) && (c <=? hi).

Definition unicode_ToUpper {U : Unicode} (r : rune) : rune :=
  if r <=? MaxASCII then
    (if in_range 0x61 0x7A r then r - 32 else r)
  else ToUpper_table r.

Definition unicode_ToLower {U : Unicode} (r : rune) : rune :=
  if r <=? MaxASCII then
    (if in_range 0x41 0x5A r then r + 32 else r)
  else ToLower_table r.

Definition unicode_IsNumber {U : Unicode} (r : rune) : bool :=
  if in_range 0 MaxASCII r then in_range 0x30 0x39 r
  else IsNumber_table r.

(** The rows U+0080..U+00FF of Go's tables ([_CaseRanges] and the Latin-1
    [properties] array); runes above U+00FF are left caseless and
    non-numeric.  Closed examples are evaluated with these tables. *)
Definition latin1 : Unicode := {|
  ToUpper_table r :=
    if r =? 0xB5 then r + 743
    else if in_range 0xE0 0xF6 r || in_range 0xF8 0xFE r then r - 32
    else if r =? 0xFF then r + 121
    else r;
  ToLower_table r :=
    if in_range 0xC0 0xD6 r || in_range 0xD8 0xDE r then r + 32 else r;
  IsNumber_table r :=
    (r =? 0xB2) || (r =? 0xB3) || (r =? 0xB9) || in_range 0xBC 0xBE r
|}.

(** [strings.ToUpper], on the strings the program applies it to (the
    abbreviations, which are ASCII): every rune upper-cased. *)
Definition strings_ToUpper {U : Unicode} (s : gostring) : gostring :=
  map unicode_ToUpper s.

(** ** The identifier classifier (lines 309-359)

    Each [case] of the [switch] falls through to [return true], so the
    predicate is the disjunction of the listed ranges. *)

Definition swiftIdentifierHeadRanges : list (rune * rune) :=
  [ (0x61, 0x7a); (0x41, 0x5a);
    (0x5f, 0x5f);
    (0xa8, 0xa8); (0xaa, 0xaa); (0xad, 0xad); (0xaf, 0xaf); (0xb2, 0xb5); (0xb7, 0xba);
    (0xbc, 0xbe); (0xc0, 0xd6); (0xd8, 0xf6); (0xf8, 0xff);
    (0x100, 0x2ff); (0x370, 0x167f); (0x1681, 0x180d); (0x180f, 0x1dbf);
    (0x1e00, 0x1fff);
    (0x200b, 0x200d); (0x202a, 0x202e); (0x203F, 0x203F); (0x2040, 0x2040); (0x2054, 0x2054); (0x2060, 0x206f);
    (0x2070, 0x20cf); (0x2100, 0x218f); (0x2460, 0x24ff); (0x2776, 0x2793);
    (0x2c00, 0x2dff); (0x2e80, 0x2fff);
    (0x3004, 0x3007); (0x3021, 0x302f); (0x3031, 0x303f); (0x3040, 0xd7ff);
    (0xf900, 0xfd3d); (0xfd40, 0xfdcf); (0xfdf0, 0xfe1f); (0xfe30, 0xfe44);
    (0xfe47, 0xfffd);
    (0x10000, 0x1fffd); (0x20000, 0x2fffd); (0x30000, 0x3fffd); (0x40000, 0x4fffd);
    (0x50000, 0x5fffd); (0x60000, 0x6fffd); (0x70000, 0x7fffd); (0x80000, 0x8fffd);
    (0x90000, 0x9fffd); (0xa0000, 0xafffd); (0xb0000, 0xbfffd); (0xc0000, 0xcfffd);
    (0xd0000, 0xdfffd); (0xe0000, 0xefffd) ].

Definition in_ranges (ranges : list (rune * rune)) (c : rune) : bool :=
  existsb (fun r => in_range (fst r) (snd r) c) ranges.

Definition isSwiftIdentifierHeadCharacter (c : rune) : bool :=
  in_ranges swiftIdentifierHeadRanges c.

Definition isSwiftIdentifierCharacter (c : rune) : bool :=
  if in_range 0x30 0x39 c then true
  else if in_ranges [ (0x300, 0x36F); (0x1dc0, 0x1dff); (0x20d0, 0x20ff); (0xfe20, 0xfe2f) ] c
  then true
  else isSwiftIdentifierHeadCharacter c.

(** ** The type-prefix deriver (lines 146-180) *)

Record FileOptions : Type := { swift_prefix : option gostring }.

(** [options.GetSwiftPrefix()]: the empty string on a nil receiver or an
    unset field. *)
Definition GetSwiftPrefix (options : option FileOptions) : gostring :=
  match options with
  | Some {| swift_prefix := Some p |} => p
  | _ => []
  end.

Definition dot_rune : rune := 46.

(** One iteration of the loop over the package's runes; the state is
    [(ret, makeUpper)]. *)
Definition typePrefix_step {U : Unicode} (st : gostring * bool) (c : rune)
  : gostring * bool :=
  let '(ret, makeUpper) := st in
  if c =? underscore_rune then (ret, true)
  else if c =? dot_rune then (ret ++ [underscore_rune], true)
  else
    let ret := if is_empty ret && unicode_IsNumber c
               then ret ++ [underscore_rune] else ret in
    if makeUpper then (ret ++ [unicode_ToUpper c], false)
    else (ret ++ [c], makeUpper).

Definition typePrefixInternal {U : Unicode}
  (packageName : gostring) (options : option FileOptions) : gostring :=
  let swiftPrefix := GetSwiftPrefix options in
  if negb (is_empty swiftPrefix) then swiftPrefix
  else if is_empty packageName then []
  else
    let '(ret, _) := fold_left typePrefix_step packageName ([], true) in
    ret ++ [underscore_rune].

(** ** The CamelCase transformer (lines 182-307) *)

Definition toUpperCamelCase_abbreviations : list gostring :=
  map go [ "url"; "http"; "https"; "id" ]%string.

Definition appreviations (s : gostring) : bool :=
  existsb (eqb_runes s) toUpperCamelCase_abbreviations.

Inductive CharKind : Type := digit | lower | upper | underscore | other.

Definition CharKind_eqb (a b : CharKind) : bool :=
  match a, b with
  | digit, digit | lower, lower | upper, upper
  | underscore, underscore | other, other => true
  | _, _ => false
  end.

Definition toCharKind (c : rune) : CharKind :=
  if in_range 0x30 0x39 c then digit
  else if in_range 0x61 0x7A c then lower
  else if in_range 0x41 0x5A c then upper
  else if c =? underscore_rune then underscore
  else other.

Definition uppercaseFirstCharacter {U : Unicode} (s : gostring) : gostring :=
  match s with
  | [] => s
  | c :: rest => unicode_ToUpper c :: rest
  end.

(** The locals of [transform] that the loop and the closure [addCurrent]
    update: the builder [result], the pending word [current], and
    [lastKind]. *)
Record TransformState : Type := {
  result : gostring;
  current : list rune;
  lastKind : CharKind
}.

Definition transform_init : TransformState :=
  {| result := []; current := []; lastKind := other |}.

Definition WriteRune (c : rune) (st : TransformState) : TransformState :=
  {| result := result st ++ [c]; current := current st; lastKind := lastKind st |}.

Definition append_current (c : rune) (st : TransformState) : TransformState :=
  {| result := result st; current := current st ++ [c]; lastKind := lastKind st |}.

Definition addCurrent {U : Unicode} (initialUpperCase : bool)
  (st : TransformState) : TransformState :=
  if is_empty (current st) then st
  else
    let currentAsString := current st in
    let currentAsString :=
      if is_empty (result st) && negb initialUpperCase then currentAsString
      else if appreviations currentAsString then strings_ToUpper currentAsString
      else uppercaseFirstCharacter currentAsString in
    {| result := result st ++ currentAsString;
       current := [];
       lastKind := lastKind st |}.

(** The body of the loop over the name's runes, the assignment
    [lastKind = kind] included. *)
Definition transform_step {U : Unicode} (initialUpperCase : bool)
  (st : TransformState) (c : rune) : TransformState :=
  let kind := toCharKind c in
  let st' :=
    match kind with
    | digit =>
        let st1 := if negb (CharKind_eqb (lastKind st) digit)
                   then addCurrent initialUpperCase st else st in
        let st2 := if is_empty (result st1)
                   then WriteRune underscore_rune st1 else st1 in
        append_current c st2
    | upper =>
        let st1 := if negb (CharKind_eqb (lastKind st) upper)
                   then addCurrent initialUpperCase st else st in
        append_current (unicode_ToLower c) st1
    | lower =>
        let st1 := if negb (CharKind_eqb (lastKind st) lower)
                      && negb (CharKind_eqb (lastKind st) upper)
                   then addCurrent initialUpperCase st else st in
        append_current c st1
    | underscore =>
        let st1 := addCurrent initialUpperCase st in
        if CharKind_eqb (lastKind st) underscore
        then WriteRune underscore_rune st1 else st1
    | other =>
        let st1 := addCurrent initialUpperCase st in
        let escapeIt :=
          if is_empty (result st1)
          then negb (isSwiftIdentifierHeadCharacter c)
          else negb (isSwiftIdentifierCharacter c) in
        if escapeIt
        then {| result := result st1 ++ go "_u" ++ decimal c;
                current := current st1;
                lastKind := lastKind st1 |}
        else append_current c st1
    end in
  {| result := result st'; current := current st'; lastKind := kind |}.

Definition transform_loop {U : Unicode} (initialUpperCase : bool)
  (st : TransformState) (name : gostring) : TransformState :=
  fold_left (transform_step initialUpperCase) name st.

(** After the loop: the last segment is added, then the trailing
    underscore. *)
Definition transform_finish {U : Unicode} (initialUpperCase : bool)
  (st : TransformState) : gostring :=
  let st1 := addCurrent initialUpperCase st in
  if CharKind_eqb (lastKind st) underscore
  then result st1 ++ [underscore_rune]
  else result st1.

Definition transform {U : Unicode} (name : gostring) (initialUpperCase : bool)
  : gostring :=
  transform_finish initialUpperCase
    (transform_loop initialUpperCase transform_init name).

Definition toUpperCamelCase {U : Unicode} (name : gostring) : gostring :=
  transform name true.

(** ** The descriptor tree

    The request carries the schema files as a tree ([FileDescriptorProto],
    [DescriptorProto]).  [protoreflect] presents a declaration together
    with its parent: a message descriptor is a declaration reached from a
    file (top level) or from an enclosing message (nested). *)

#[local] Set Warnings "-register-all".

Inductive DescriptorProto : Type := MkDescriptorProto {
  msg_name : gostring;
  oneof_decl : list gostring;
  nested_type : list DescriptorProto;
  enum_type : list gostring
}.

Record FileDescriptorProto : Type := {
  file_name : gostring;
  file_package : gostring;
  file_options : option FileOptions;
  message_type : list DescriptorProto;
  file_enum_type : list gostring
}.

Inductive MessageDescriptor : Type :=
| TopLevelMessage (file : FileDescriptorProto) (decl : DescriptorProto)
| NestedMessage (container : MessageDescriptor) (decl : DescriptorProto).

Inductive EnumDescriptor : Type :=
| TopLevelEnum (file : FileDescriptorProto) (name : gostring)
| NestedEnum (container : MessageDescriptor) (name : gostring).

Record OneofDescriptor : Type := {
  oneof_parent : MessageDescriptor;
  oneof_name : gostring
}.

Definition message_decl (m : MessageDescriptor) : DescriptorProto :=
  match m with
  | TopLevelMessage _ d => d
  | NestedMessage _ d => d
  end.

(** [message.Name()]. *)
Definition message_Name (m : MessageDescriptor) : gostring :=
  msg_name (message_decl m).

(** [message.ParentFile()]. *)
Fixpoint message_ParentFile (m : MessageDescriptor) : FileDescriptorProto :=
  match m with
  | TopLevelMessage f _ => f
  | NestedMessage container _ => message_ParentFile container
  end.

Definition enum_Name (e : EnumDescriptor) : gostring :=
  match e with
  | TopLevelEnum _ n => n
  | NestedEnum _ n => n
  end.

(** [protoreflect.FullName.Append]: the parent's full name, a dot and the
    name; the name alone under an empty package. *)
Definition FullName_Append (parent name : gostring) : gostring :=
  if is_empty parent then name else parent ++ [dot_rune] ++ name.

Fixpoint message_FullName (m : MessageDescriptor) : gostring :=
  match m with
  | TopLevelMessage f d => FullName_Append (file_package f) (msg_name d)
  | NestedMessage container d =>
      FullName_Append (message_FullName container) (msg_name d)
  end.

Definition enum_FullName (e : EnumDescriptor) : gostring :=
  match e with
  | TopLevelEnum f n => FullName_Append (file_package f) n
  | NestedEnum container n => FullName_Append (message_FullName container) n
  end.

Definition oneof_FullName (o : OneofDescriptor) : gostring :=
  FullName_Append (message_FullName (oneof_parent o)) (oneof_name o).

(** [fileDescriptor.Messages()], [fileDescriptor.Enums()],
    [message.Oneofs()], [message.Messages()], [message.Enums()]. *)
Definition file_Messages (f : FileDescriptorProto) : list MessageDescriptor :=
  map (TopLevelMessage f) (message_type f).

Definition file_Enums (f : FileDescriptorProto) : list EnumDescriptor :=
  map (TopLevelEnum f) (file_enum_type f).

Definition message_Oneofs (m : MessageDescriptor) : list OneofDescriptor :=
  map (fun n => {| oneof_parent := m; oneof_name := n |})
      (oneof_decl (message_decl m)).

Definition message_Messages (m : MessageDescriptor) : list MessageDescriptor :=
  map (NestedMessage m) (nested_type (message_decl m)).

Definition message_Enums (m : MessageDescriptor) : list EnumDescriptor :=
  map (NestedEnum m) (enum_type (message_decl m)).

(** ** The full-name resolver (lines 66-109) *)

Definition typePrefix {U : Unicode} (file : FileDescriptorProto) : gostring :=
  typePrefixInternal (file_package file) (file_options file).

Definition relativeNameOfMessage {U : Unicode} (message : MessageDescriptor)
  : gostring :=
  match message with
  | NestedMessage _ _ => sanitizeMessage (message_Name message)
  | TopLevelMessage _ _ =>
      let prefix := typePrefix (message_ParentFile message) in
      sanitizeMessage (prefix ++ message_Name message)
  end.

Fixpoint fullNameOfMessage {U : Unicode} (message : MessageDescriptor)
  : gostring :=
  let relativeName := relativeNameOfMessage message in
  match message with
  | NestedMessage container _ =>
      fullNameOfMessage container ++ [dot_rune] ++ relativeName
  | TopLevelMessage _ _ => relativeName
  end.

Definition relativeNameOfEnum {U : Unicode} (enum : EnumDescriptor) : gostring :=
  match enum with
  | NestedEnum _ _ => sanitizeEnum (enum_Name enum)
  | TopLevelEnum f _ =>
      let prefix := typePrefix f in
      sanitizeMessage (prefix ++ enum_Name enum)
  end.

Definition fullNameOfEnum {U : Unicode} (enum : EnumDescriptor) : gostring :=
  let relativeName := relativeNameOfEnum enum in
  match enum with
  | NestedEnum container _ =>
      fullNameOfMessage container ++ [dot_rune] ++ relativeName
  | TopLevelEnum _ _ => relativeName
  end.

Definition relativeNameOfOneof {U : Unicode} (oneof : OneofDescriptor)
  : gostring :=
  let camelCase := toUpperCamelCase (oneof_name oneof) in
  sanitizeOneof (go "OneOf_" ++ camelCase).

Definition fullNameOfOneof {U : Unicode} (oneof : OneofDescriptor) : gostring :=
  fullNameOfMessage (oneof_parent oneof) ++ [dot_rune]
  ++ relativeNameOfOneof oneof.

(** ** The emitter (lines 33-53 of [main])

    The writer receives one line per [Fprintln]; the model keeps the two
    operands of each line as a [NameRecord], in the order written. *)

Definition NameRecord : Type := (gostring * gostring)%type.

(** [fmt.Fprintln(writer, a, b)]. *)
Definition Fprintln (r : NameRecord) : gostring :=
  fst r ++ go " " ++ snd r ++ [10].

(** The body of the loop over [messages]. *)
Definition emit_message {U : Unicode} (message : MessageDescriptor)
  : list NameRecord :=
  (message_FullName message, fullNameOfMessage message)
  :: map (fun oneof => (oneof_FullName oneof, fullNameOfOneof oneof))
         (message_Oneofs message).

(** The body of the loop over [req.ProtoFile]. *)
Definition emit_file {U : Unicode} (file : FileDescriptorProto)
  : list NameRecord :=
  flat_map emit_message (file_Messages file)
  ++ map (fun enum => (enum_FullName enum, fullNameOfEnum enum))
         (file_Enums file).

Definition main_records {U : Unicode} (req : list FileDescriptorProto)
  : list NameRecord :=
  flat_map emit_file req.

(** The content of [mapper.txt]. *)
Definition mapper_txt {U : Unicode} (req : list FileDescriptorProto) : gostring :=
  concat (map Fprintln (main_records req)).

(** ** Definitions that follow the words of the specification

    They are compared with the code below and are not part of it. *)

(** Spec 4.6: a message's record, its oneofs' records, then the same walk
    of each nested message, then its nested enums. *)
Fixpoint spec_walk_message {U : Unicode}
  (view : DescriptorProto -> MessageDescriptor) (decl : DescriptorProto)
  : list NameRecord :=
  let message := view decl in
  (message_FullName message, fullNameOfMessage message)
  :: map (fun oneof => (oneof_FullName oneof, fullNameOfOneof oneof))
         (message_Oneofs message)
  ++ flat_map (spec_walk_message (NestedMessage message)) (nested_type decl)
  ++ map (fun enum => (enum_FullName enum, fullNameOfEnum enum))
         (message_Enums message).

Definition spec_walk_file {U : Unicode} (file : FileDescriptorProto)
  : list NameRecord :=
  flat_map (spec_walk_message (TopLevelMessage file)) (message_type file)
  ++ map (fun enum => (enum_FullName enum, fullNameOfEnum enum))
         (file_Enums file).

(** Spec 4.1, [sanitizedLocal]: the local name through the CamelCase
    transformer in capitalize mode, then through the sanitizer of the
    node's kind. *)
Definition spec_sanitizedLocal {U : Unicode} (k : EntityKind) (name : gostring)
  : gostring :=
  sanitize k (transform name true).

(** Spec 4.1, [resolve] on messages and on enums. *)
Fixpoint spec_resolve_message {U : Unicode} (m : MessageDescriptor) : gostring :=
  match m with
  | NestedMessage container d =>
      spec_resolve_message container ++ [dot_rune]
      ++ spec_sanitizedLocal Message (msg_name d)
  | TopLevelMessage f d =>
      typePrefix f ++ spec_sanitizedLocal Message (msg_name d)
  end.

Definition spec_resolve_enum {U : Unicode} (e : EnumDescriptor) : gostring :=
  match e with
  | NestedEnum container n =>
      spec_resolve_message container ++ [dot_rune]
      ++ spec_sanitizedLocal Enum n
  | TopLevelEnum f n => typePrefix f ++ spec_sanitizedLocal Enum n
  end.

(** Spec 4.2, the scan of the package path: [start] is the "start new
    capitalized word" flag and [emitted] tells whether a character has been
    emitted yet. *)
Fixpoint spec_prefix_scan {U : Unicode} (start emitted : bool)
  (package : gostring) : gostring :=
  match package with
  | [] => []
  | c :: rest =>
      if c =? underscore_rune then spec_prefix_scan true emitted rest
      else if c =? dot_rune then
        underscore_rune :: spec_prefix_scan true true rest
      else
        (if negb emitted && unicode_IsNumber c then [underscore_rune] else [])
        ++ (if start then unicode_ToUpper c else c)
        :: spec_prefix_scan false true rest
  end.

Definition spec_prefix {U : Unicode} (package : gostring)
  (override : option gostring) : gostring :=
  match override with
  | Some (c :: o) => c :: o
  | _ =>
      match package with
      | [] => []
      | _ => spec_prefix_scan true false package ++ [underscore_rune]
      end
  end.

(** The "explicit override string", when the options carry one. *)
Definition explicit_override (options : option FileOptions) : option gostring :=
  match options with
  | Some o => swift_prefix o
  | None => None
  end.

(** ** Examples of section 8 *)

Definition no_options : option FileOptions := None.

Definition example_Inner : DescriptorProto :=
  {| msg_name := go "Inner"; oneof_decl := []; nested_type := [];
     enum_type := [] |}.

Definition example_Foo : DescriptorProto :=
  {| msg_name := go "Foo"; oneof_decl := [go "bar_baz"];
     nested_type := [example_Inner]; enum_type := [] |}.

(** Package [a.b], no override, message [Foo] with oneof [bar_baz] and
    nested message [Inner]. *)
Definition example_file : FileDescriptorProto :=
  {| file_name := go "example.proto"; file_package := go "a.b";
     file_options := no_options; message_type := [example_Foo];
     file_enum_type := [] |}.

Definition simple_message (name : string) (nested : list DescriptorProto)
  : DescriptorProto :=
  {| msg_name := go name; oneof_decl := []; nested_type := nested;
     enum_type := [] |}.

Definition simple_file (package : string) (messages : list DescriptorProto)
  : FileDescriptorProto :=
  {| file_name := go "simple.proto"; file_package := go package;
     file_options := no_options; message_type := messages;
     file_enum_type := [] |}.

(** A message [Outer] with the nested messages [Message] and [foo_bar],
    in a file without package, and a message [Type] in package [a]. *)
Definition example_Outer : DescriptorProto :=
  simple_message "Outer" [simple_message "Message" []; simple_message "foo_bar" []].

Definition example_Outer_descriptor : MessageDescriptor :=
  TopLevelMessage (simple_file "" [example_Outer]) example_Outer.

Definition example_nested_Message : MessageDescriptor :=
  NestedMessage example_Outer_descriptor (simple_message "Message" []).

Definition example_nested_foo_bar : MessageDescriptor :=
  NestedMessage example_Outer_descriptor (simple_message "foo_bar" []).

Definition example_Type : MessageDescriptor :=
  TopLevelMessage (simple_file "" [simple_message "Type" []])
                  (simple_message "Type" []).

Definition example_Type_in_package : MessageDescriptor :=
  TopLevelMessage (simple_file "a" [simple_message "Type" []])
                  (simple_message "Type" []).

(** A declaration, and a file, with every nested message and nested enum
    taken out. *)
Definition without_nested (decl : DescriptorProto) : DescriptorProto :=
  {| msg_name := msg_name decl; oneof_decl := oneof_decl decl;
     nested_type := []; enum_type := [] |}.

Definition file_without_nested (file : FileDescriptorProto)
  : FileDescriptorProto :=
  {| file_name := file_name file; file_package := file_package file;
     file_options := file_options file;
     message_type := map without_nested (message_type file);
     file_enum_type := file_enum_type file |}.

(** Vocabulary for statements about the transformer's output: ASCII
    runes, the runes [toCharKind] does not class as [other] (letters,
    digits and the underscore), and strings that the classifier of the
    program accepts as an identifier. *)
Definition is_ascii (c : rune) : bool := in_range 0 MaxASCII c.

Definition is_word_rune (c : rune) : bool :=
  negb (CharKind_eqb (toCharKind c) other).

Definition is_digit (c : rune) : bool := CharKind_eqb (toCharKind c) digit.

Definition starts_with_digit (s : gostring) : bool :=
  match s with
  | c :: _ => is_digit c
  | [] => false
  end.

Definition identifier_shaped (s : gostring) : bool :=
  forallb isSwiftIdentifierCharacter s
  && match s with
     | c :: _ => isSwiftIdentifierHeadCharacter c
     | [] => true
     end.

(** * Properties *)

(** ** Strings *)

Lemma eqb_runes_spec (a b : gostring) : eqb_runes a b = true <-> a = b.
Proof.
  revert b; induction a as [|x a IH]; intros [|y b]; simpl; split;
    try congruence; try reflexivity.
  - intros H. apply andb_true_iff in H as [Hx Ha].
    apply Z.eqb_eq in Hx. apply IH in Ha. congruence.
  - intros H. injection H as -> ->.
    rewrite Z.eqb_refl. simpl. apply IH. reflexivity.
Qed.

Lemma eqb_runes_refl (a : gostring) : eqb_runes a a = true.
Proof. apply eqb_runes_spec. reflexivity. Qed.

Lemma app_nonempty_neq (s d : gostring) : d <> [] -> s ++ d <> s.
Proof.
  intros Hd H. apply (f_equal (@length rune)) in H.
  rewrite length_app in H. destruct d; [congruence | simpl in H; lia].
Qed.

Lemma HasSuffix_length (s d : gostring) :
  HasSuffix s d = true -> (length d <= length s)%nat.
Proof.
  unfold HasSuffix. intros H. apply andb_true_iff in H as [H _].
  apply Nat.leb_le in H. exact H.
Qed.

Lemma HasSuffix_split (s d : gostring) :
  HasSuffix s d = true -> s = strip_suffix s d ++ d.
Proof.
  unfold HasSuffix, strip_suffix. intros H.
  apply andb_true_iff in H as [_ H]. apply eqb_runes_spec in H.
  set (n := (length s - length d)%nat) in *.
  rewrite <- H. symmetry. apply firstn_skipn.
Qed.

Lemma strip_suffix_length (s d : gostring) :
  length (strip_suffix s d) = (length s - length d)%nat.
Proof. unfold strip_suffix. rewrite length_firstn. lia. Qed.

Lemma strip_suffix_app (s d : gostring) : strip_suffix (s ++ d) d = s.
Proof.
  unfold strip_suffix. rewrite length_app.
  replace (length s + length d - length d)%nat with (length s + 0)%nat by lia.
  rewrite firstn_app_2. simpl. apply app_nil_r.
Qed.

Lemma HasSuffix_app (s d : gostring) : HasSuffix (s ++ d) d = true.
Proof.
  unfold HasSuffix. apply andb_true_iff. split.
  - apply Nat.leb_le. rewrite length_app. lia.
  - rewrite length_app.
    replace (length s + length d - length d)%nat with (length s) by lia.
    rewrite skipn_app, skipn_all, Nat.sub_diag. simpl. apply eqb_runes_refl.
Qed.

(** ** The sanitizer, for any non-empty disambiguator *)

Section Sanitizer.

Variable d : gostring.
Hypothesis d_nonempty : (0 < length d)%nat.

(** Fuel beyond [length name / length d] changes nothing, and such fuel
    is enough: every recursive call removes [length d] runes. *)
Lemma sanitizeTypeName_rec_enough (f : nat) :
  forall (name : gostring) (f' : nat),
    (length name < f * length d)%nat ->
    (length name < f' * length d)%nat ->
    sanitizeTypeName_rec f name d = sanitizeTypeName_rec f' name d
    /\ sanitizeTypeName_rec f name d <> None.
Proof.
  induction f as [|f IH]; intros name f' Hf Hf'; [simpl in Hf; lia|].
  destruct f' as [|f']; [simpl in Hf'; lia|].
  simpl. destruct (is_reserved name); [split; congruence|].
  destruct (isAllUnderscore name); [split; congruence|].
  destruct (HasSuffix name d) eqn:Hs; [|split; congruence].
  pose proof (HasSuffix_length _ _ Hs) as Hle.
  pose proof (strip_suffix_length name d) as Hlen.
  destruct (IH (strip_suffix name d) f') as [Heq Hsome];
    [simpl in Hf; lia | simpl in Hf'; lia |].
  rewrite <- Heq.
  destruct (sanitizeTypeName_rec f (strip_suffix name d) d);
    split; congruence.
Qed.

Lemma fuel_of_length (name : gostring) (extra : nat) :
  (length name < (S (length name / length d) + extra) * length d)%nat.
Proof.
  pose proof (Nat.mul_succ_div_gt (length name) (length d)) as H.
  assert (length d <> 0)%nat as Hd by lia. specialize (H Hd). nia.
Qed.

Lemma fuel_of_name (name : gostring) :
  (length name < S (length name) * length d)%nat.
Proof. nia. Qed.

Lemma sanitizeTypeName_total (name : gostring) :
  sanitizeTypeName name d = Some (returned name (sanitizeTypeName name d)).
Proof.
  unfold sanitizeTypeName.
  destruct (sanitizeTypeName_rec_enough (S (length name)) name
              (S (length name)) (fuel_of_name name) (fuel_of_name name))
    as [_ H].
  destruct (sanitizeTypeName_rec (S (length name)) name d);
    [reflexivity | congruence].
Qed.

(** The result is the name, or the name with one disambiguator. *)
Lemma sanitizeTypeName_rec_shape (f : nat) :
  forall (name r : gostring),
    sanitizeTypeName_rec f name d = Some r -> r = name \/ r = name ++ d.
Proof.
  induction f as [|f IH]; intros name r; simpl; [discriminate|].
  destruct (is_reserved name); [intros [= <-]; now right|].
  destruct (isAllUnderscore name); [intros [= <-]; now right|].
  destruct (HasSuffix name d) eqn:Hs; [|intros [= <-]; now left].
  destruct (sanitizeTypeName_rec f (strip_suffix name d) d) as [r'|] eqn:Hr;
    [|discriminate].
  intros [= <-]. apply HasSuffix_split in Hs.
  destruct (IH _ _ Hr) as [-> | ->].
  - left. symmetry. exact Hs.
  - right. rewrite <- Hs. reflexivity.
Qed.

(** A name that does not collide and does not end in the disambiguator
    is returned as it is. *)
Lemma sanitizeTypeName_plain (name : gostring) :
  is_reserved name = false -> isAllUnderscore name = false ->
  HasSuffix name d = false ->
  sanitizeTypeName name d = Some name.
Proof.
  intros H1 H2 H3. unfold sanitizeTypeName. simpl.
  rewrite H1, H2, H3. reflexivity.
Qed.

Hypothesis d_not_underscores : forallb (fun s => s =? underscore_rune) d = false.

Lemma isAllUnderscore_app (s : gostring) : isAllUnderscore (s ++ d) = false.
Proof.
  unfold isAllUnderscore.
  assert (forallb (fun c => c =? underscore_rune) (s ++ d) = false) as H
    by (rewrite forallb_app; apply andb_false_iff; right;
        exact d_not_underscores).
  destruct (s ++ d); [reflexivity | exact H].
Qed.

(** A name that ends in the disambiguator: one disambiguator more when
    the whole name is reserved, and otherwise the sanitized stem with
    the disambiguator back on it. *)
Lemma sanitizeTypeName_app (s : gostring) :
  returned (s ++ d) (sanitizeTypeName (s ++ d) d)
  = if is_reserved (s ++ d) then (s ++ d) ++ d
    else returned s (sanitizeTypeName s d) ++ d.
Proof.
  unfold sanitizeTypeName at 1.
  change (sanitizeTypeName_rec (S (length (s ++ d))) (s ++ d) d)
    with (if is_reserved (s ++ d) then Some ((s ++ d) ++ d)
          else if isAllUnderscore (s ++ d) then Some ((s ++ d) ++ d)
          else if HasSuffix (s ++ d) d then
            match sanitizeTypeName_rec (length (s ++ d))
                    (strip_suffix (s ++ d) d) d with
            | Some r => Some (r ++ d)
            | None => None
            end
          else Some (s ++ d)).
  destruct (is_reserved (s ++ d)); [reflexivity|].
  rewrite isAllUnderscore_app, HasSuffix_app, strip_suffix_app.
  assert (length s < length (s ++ d) * length d)%nat as Hf
    by (rewrite length_app; nia).
  destruct (sanitizeTypeName_rec_enough _ s (S (length s)) Hf (fuel_of_name s))
    as [-> _].
  fold (sanitizeTypeName s d). rewrite sanitizeTypeName_total. reflexivity.
Qed.

End Sanitizer.

(** ** The three kinds *)

Lemma disambiguator_nonempty (k : EntityKind) : (0 < length (disambiguator k))%nat.
Proof. destruct k; simpl; lia. Qed.

Lemma disambiguator_not_underscores (k : EntityKind) :
  forallb (fun s => s =? underscore_rune) (disambiguator k) = false.
Proof. destruct k; reflexivity. Qed.

Lemma sanitize_unfold (k : EntityKind) (name : gostring) :
  sanitize k name = returned name (sanitizeTypeName name (disambiguator k)).
Proof. destruct k; reflexivity. Qed.

Lemma sanitize_returns (k : EntityKind) (name : gostring) :
  sanitizeTypeName name (disambiguator k) = Some (sanitize k name).
Proof.
  rewrite sanitize_unfold.
  apply sanitizeTypeName_total, disambiguator_nonempty.
Qed.

Lemma sanitize_shape (k : EntityKind) (s : gostring) :
  sanitize k s = s \/ sanitize k s = s ++ disambiguator k.
Proof.
  apply (sanitizeTypeName_rec_shape (disambiguator k) (S (length s))).
  apply sanitize_returns.
Qed.

Lemma sanitize_app (k : EntityKind) (s : gostring) :
  sanitize k (s ++ disambiguator k)
  = if is_reserved (s ++ disambiguator k)
    then (s ++ disambiguator k) ++ disambiguator k
    else sanitize k s ++ disambiguator k.
Proof.
  rewrite !sanitize_unfold.
  apply sanitizeTypeName_app;
    [apply disambiguator_nonempty | apply disambiguator_not_underscores].
Qed.

Lemma sanitize_plain (k : EntityKind) (s : gostring) :
  is_reserved s = false -> isAllUnderscore s = false ->
  HasSuffix s (disambiguator k) = false ->
  sanitize k s = s.
Proof.
  intros H1 H2 H3. rewrite sanitize_unfold.
  rewrite (sanitizeTypeName_plain _ _ H1 H2 H3). reflexivity.
Qed.

Lemma sanitize_collision (k : EntityKind) (s : gostring) :
  is_reserved s || isAllUnderscore s = true ->
  sanitize k s = s ++ disambiguator k.
Proof.
  intros H. rewrite sanitize_unfold. unfold sanitizeTypeName. simpl.
  destruct (is_reserved s); [reflexivity|].
  simpl in H. rewrite H. reflexivity.
Qed.

Lemma disambiguator_neq (k : EntityKind) (s : gostring) :
  s ++ disambiguator k <> s.
Proof.
  apply app_nonempty_neq. pose proof (disambiguator_nonempty k).
  destruct (disambiguator k); [simpl in *; lia | discriminate].
Qed.

(** With an empty disambiguator the recursive branch calls itself on the
    same name: no amount of fuel is enough. *)
Lemma sanitizeTypeName_rec_empty_disambiguator (fuel : nat) :
  sanitizeTypeName_rec fuel (go "x") [] = None.
Proof.
  induction fuel as [|fuel IH]; [reflexivity|].
  simpl. change (strip_suffix (go "x") []) with (go "x").
  rewrite IH. reflexivity.
Qed.

(** ** Claims on the sanitizer *)

(** C9.  The sanitizer terminates on every input.  Each of the three
    suffixes has positive length; the recursive branch, taken only when
    the name ends in the suffix, calls itself on a name shorter by exactly
    the suffix's length; hence [length name / length suffix + 1] calls are
    always enough, more fuel changes nothing, and [sanitizeTypeName]
    returns a result for every name: the one [sanitize] gives. *)
Theorem sanitizeTypeName_terminates (k : EntityKind) (name : gostring) :
  (0 < length (disambiguator k))%nat
  /\ (HasSuffix name (disambiguator k) = true ->
      (length (strip_suffix name (disambiguator k)) + length (disambiguator k)
       = length name)%nat)
  /\ sanitizeTypeName name (disambiguator k) = Some (sanitize k name)
  /\ forall extra : nat,
      sanitizeTypeName_rec
        (S (length name / length (disambiguator k)) + extra)
        name (disambiguator k)
      = Some (sanitize k name).
Proof.
  pose proof (disambiguator_nonempty k) as Hd.
  split; [exact Hd|]. split.
  - intros Hs. apply HasSuffix_length in Hs.
    rewrite strip_suffix_length. lia.
  - split; [apply sanitize_returns|].
    intros extra. rewrite <- sanitize_returns. unfold sanitizeTypeName.
    apply (sanitizeTypeName_rec_enough (disambiguator k) Hd).
    + apply fuel_of_length, Hd.
    + apply fuel_of_name, Hd.
Qed.

(** C9 at the name [FooMessage]: one recursive call, on [Foo]. *)
Lemma sanitizeTypeName_terminates_witness :
  HasSuffix (go "FooMessage") (go "Message") = true
  /\ (length (strip_suffix (go "FooMessage") (go "Message")) + 7 = 10)%nat
  /\ sanitizeTypeName_rec 2 (go "FooMessage") (go "Message")
     = Some (go "FooMessage").
Proof.
  destruct (sanitizeTypeName_terminates Message (go "FooMessage"))
    as (_ & Hs & _ & Hf).
  split; [reflexivity|].
  split; [exact (Hs eq_refl) | exact (Hf 0%nat)].
Defined.

(** C10.  For every candidate [s] and every kind [k], the sanitizer's
    result is [s] itself or [s] followed by one copy of [k]'s suffix; the
    empty string, which the all-underscore check rejects, is returned
    unchanged. *)
Theorem sanitize_at_most_one_suffix (k : EntityKind) (s : gostring) :
  (sanitize k s = s \/ sanitize k s = s ++ disambiguator k)
  /\ isAllUnderscore [] = false
  /\ sanitize k [] = [].
Proof.
  split; [apply sanitize_shape | destruct k; split; reflexivity].
Qed.

(** C3, as stated, fails: [Type] sanitizes to [TypeMessage], and
    [TypeMessage] sanitizes to [TypeMessageMessage]; and [TypeMessage], which
    is neither reserved nor all underscores, does not survive
    strip, re-sanitize, re-append. *)
Lemma sanitize_not_idempotent :
  sanitize Message (go "Type") = go "TypeMessage"
  /\ sanitize Message (sanitize Message (go "Type")) = go "TypeMessageMessage"
  /\ sanitize Message (sanitize Message (go "Type"))
     <> sanitize Message (go "Type")
  /\ is_reserved (go "TypeMessage") = false
  /\ isAllUnderscore (go "TypeMessage") = false
  /\ sanitize Message
       (strip_suffix (go "TypeMessage" ++ go "Message") (go "Message"))
     ++ go "Message"
     <> go "TypeMessage" ++ go "Message".
Proof.
  repeat split; try reflexivity; vm_compute; discriminate.
Qed.

(** C3, amended.  Sanitizing a sanitized name returns it unchanged exactly
    when the first pass left the name unchanged; when the first pass
    appended the suffix, the second pass appends one more copy.  And for
    every candidate [t] that is not reserved, not all underscores and
    whose stem (what is left of [t] without [k]'s suffix, when [t] ends in
    it) the sanitizer leaves unchanged, the sanitizer returns [t], so that
    stripping the suffix from [t ++ suffix], re-sanitizing and re-appending
    yields [t ++ suffix] again; every candidate that does not end in the
    suffix meets the condition on the stem, and no other candidate is
    returned unchanged. *)
Theorem sanitize_resanitize (k : EntityKind) (s : gostring) :
  sanitize k (sanitize k s)
  = (if eqb_runes (sanitize k s) s then sanitize k s
     else sanitize k s ++ disambiguator k)
  /\ (is_reserved s = false -> isAllUnderscore s = false ->
      (HasSuffix s (disambiguator k) = true ->
       sanitize k (strip_suffix s (disambiguator k))
       = strip_suffix s (disambiguator k)) ->
      sanitize k s = s
      /\ sanitize k (strip_suffix (s ++ disambiguator k) (disambiguator k))
         ++ disambiguator k
         = s ++ disambiguator k)
  /\ (sanitize k s = s ->
      is_reserved s = false /\ isAllUnderscore s = false
      /\ (HasSuffix s (disambiguator k) = true ->
          sanitize k (strip_suffix s (disambiguator k))
          = strip_suffix s (disambiguator k))).
Proof.
  split; [|split].
  - destruct (sanitize_shape k s) as [E | E]; rewrite E.
    + rewrite eqb_runes_refl. exact E.
    + destruct (eqb_runes (s ++ disambiguator k) s) eqn:Hq.
      * apply eqb_runes_spec in Hq. exfalso.
        exact (disambiguator_neq k s Hq).
      * rewrite sanitize_app, E.
        destruct (is_reserved (s ++ disambiguator k)); reflexivity.
  - intros H1 H2 H3. rewrite strip_suffix_app.
    assert (sanitize k s = s) as E.
    { destruct (HasSuffix s (disambiguator k)) eqn:Hs.
      - specialize (H3 eq_refl). apply HasSuffix_split in Hs.
        remember (strip_suffix s (disambiguator k)) as t eqn:Et. clear Et.
        subst s. rewrite sanitize_app, H1, H3. reflexivity.
      - apply sanitize_plain; assumption. }
    rewrite E. split; reflexivity.
  - intros E.
    assert (is_reserved s || isAllUnderscore s = false) as H.
    { destruct (is_reserved s || isAllUnderscore s) eqn:Hc; [|reflexivity].
      apply (sanitize_collision k) in Hc. rewrite E in Hc.
      exfalso. exact (disambiguator_neq k s (eq_sym Hc)). }
    apply orb_false_iff in H as [H1 H2].
    split; [exact H1|]. split; [exact H2|].
    intros Hs. apply HasSuffix_split in Hs.
    remember (strip_suffix s (disambiguator k)) as t eqn:Et. clear Et.
    subst s. rewrite sanitize_app, H1 in E.
    apply app_inv_tail in E. exact E.
Qed.

(** C3, amended, at the candidate [FooMessage], which ends in the suffix
    over the stem [Foo]. *)
Lemma sanitize_resanitize_witness :
  HasSuffix (go "FooMessage") (go "Message") = true
  /\ sanitize Message (go "FooMessage") = go "FooMessage"
  /\ sanitize Message
       (strip_suffix (go "FooMessage" ++ go "Message") (go "Message"))
     ++ go "Message"
     = go "FooMessage" ++ go "Message".
Proof.
  split; [reflexivity|].
  exact (proj1 (proj2 (sanitize_resanitize Message (go "FooMessage")))
               eq_refl eq_refl (fun _ => eq_refl)).
Defined.

(** ** The transformer's state machine *)

Section Transformer.

Context {U : Unicode}.
Variable initialUpperCase : bool.

Lemma addCurrent_current (st : TransformState) :
  current (addCurrent initialUpperCase st) = [].
Proof.
  unfold addCurrent. destruct (current st) eqn:E; simpl;
    [exact E | reflexivity].
Qed.




(** The builder is only ever appended to. *)
Lemma addCurrent_result (st : TransformState) :
  exists w, result (addCurrent initialUpperCase st) = result st ++ w.
Proof.
  unfold addCurrent. destruct (is_empty (current st)).
  - exists []. symmetry. apply app_nil_r.
  - simpl. eexists. reflexivity.
Qed.

Lemma transform_step_result (st : TransformState) (c : rune) :
  exists w, result (transform_step initialUpperCase st c) = result st ++ w.
Proof.
  destruct (addCurrent_result st) as [w Hw].
  assert (exists w', result st = result st ++ w') as Hst
    by (exists []; symmetry; apply app_nil_r).
  unfold transform_step.
  destruct (toCharKind c); simpl.
  - destruct (negb (CharKind_eqb (lastKind st) digit)).
    + destruct (is_empty (result (addCurrent initialUpperCase st))); simpl;
        rewrite Hw; [rewrite <- app_assoc|]; eexists; reflexivity.
    + destruct (is_empty (result st)); simpl; [eexists; reflexivity|exact Hst].
  - destruct (negb (CharKind_eqb (lastKind st) lower)
              && negb (CharKind_eqb (lastKind st) upper)); simpl;
      [rewrite Hw; eexists; reflexivity | exact Hst].
  - destruct (negb (CharKind_eqb (lastKind st) upper)); simpl;
      [rewrite Hw; eexists; reflexivity | exact Hst].
  - destruct (CharKind_eqb (lastKind st) underscore); simpl;
      rewrite Hw; [rewrite <- app_assoc|]; eexists; reflexivity.
  - match goal with |- context [if ?b then _ else _] => destruct b end; simpl;
      rewrite Hw; [rewrite <- app_assoc|]; eexists; reflexivity.
Qed.

Lemma transform_loop_result (name : gostring) :
  forall st : TransformState,
    exists w, result (transform_loop initialUpperCase st name) = result st ++ w.
Proof.
  unfold transform_loop.
  induction name as [|c name IH]; intros st; simpl.
  - exists []. symmetry. apply app_nil_r.
  - destruct (IH (transform_step initialUpperCase st c)) as [w Hw].
    destruct (transform_step_result st c) as [w' Hw'].
    rewrite Hw, Hw', <- app_assoc.
    eexists. reflexivity.
Qed.

Lemma transform_finish_result (st : TransformState) :
  exists w, transform_finish initialUpperCase st = result st ++ w.
Proof.
  unfold transform_finish. destruct (addCurrent_result st) as [w Hw].
  destruct (CharKind_eqb (lastKind st) underscore); rewrite Hw;
    [rewrite <- app_assoc|]; eexists; reflexivity.
Qed.

(** Whatever is in the builder at some point of the loop is a prefix of
    the string [transform] returns. *)
Lemma transform_run_result (st : TransformState) (name : gostring) :
  exists w,
    transform_finish initialUpperCase (transform_loop initialUpperCase st name)
    = result st ++ w.
Proof.
  destruct (transform_finish_result (transform_loop initialUpperCase st name))
    as [w Hw].
  destruct (transform_loop_result name st) as [w' Hw'].
  rewrite Hw, Hw', <- app_assoc. eexists. reflexivity.
Qed.

Lemma transform_app (pre post : gostring) :
  transform (pre ++ post) initialUpperCase
  = transform_finish initialUpperCase
      (transform_loop initialUpperCase
         (transform_loop initialUpperCase transform_init pre) post).
Proof.
  unfold transform, transform_loop. rewrite fold_left_app. reflexivity.
Qed.

(** *** Underscores *)

Lemma transform_step_underscore (st : TransformState) :
  transform_step initialUpperCase st underscore_rune
  = {| result :=
         if CharKind_eqb (lastKind st) underscore
         then result (addCurrent initialUpperCase st) ++ [underscore_rune]
         else result (addCurrent initialUpperCase st);
       current := [];
       lastKind := underscore |}.
Proof.
  unfold transform_step.
  change (toCharKind underscore_rune) with underscore. cbv iota zeta.
  destruct (CharKind_eqb (lastKind st) underscore); simpl;
    rewrite addCurrent_current; reflexivity.
Qed.

Lemma underscore_run_state (st : TransformState) (n : nat) :
  CharKind_eqb (lastKind st) underscore = false ->
  transform_loop initialUpperCase st (repeat underscore_rune (S n))
  = {| result := result (addCurrent initialUpperCase st)
                 ++ repeat underscore_rune n;
       current := [];
       lastKind := underscore |}.
Proof.
  intros Hk. induction n as [|n IH].
  - simpl. rewrite transform_step_underscore, Hk, app_nil_r. reflexivity.
  - change (repeat underscore_rune (S (S n)))
      with (underscore_rune :: repeat underscore_rune (S n)).
    rewrite repeat_cons. unfold transform_loop in *.
    rewrite fold_left_app, IH. simpl.
    rewrite transform_step_underscore. simpl.
    rewrite <- app_assoc.
    change (underscore_rune :: repeat underscore_rune n)
      with (repeat underscore_rune (S n)).
    rewrite <- repeat_cons. reflexivity.
Qed.

(** *** Characters of class [other] *)





(** What the [other] case of the loop does to a state. *)
Lemma transform_step_other (st : TransformState) (c : rune) :
  toCharKind c = other ->
  transform_step initialUpperCase st c
  = let st1 := addCurrent initialUpperCase st in
    if (if is_empty (result st1)
        then isSwiftIdentifierHeadCharacter c
        else isSwiftIdentifierCharacter c)
    then {| result := result st1; current := [c]; lastKind := other |}
    else {| result := result st1 ++ go "_u" ++ decimal c;
            current := []; lastKind := other |}.
Proof.
  intros Hc. unfold transform_step. rewrite Hc. cbv zeta.
  destruct (is_empty (result (addCurrent initialUpperCase st)));
    match goal with |- context [negb ?b] => destruct b end; simpl;
    rewrite addCurrent_current; reflexivity.
Qed.

End Transformer.

(** *** The decimal rendering of a code point determines it *)




Lemma transform_app3 {U : Unicode} (i : bool) (pre mid post : gostring) :
  transform (pre ++ mid ++ post) i
  = transform_finish i
      (transform_loop i
         (transform_loop i (transform_loop i transform_init pre) mid) post).
Proof.
  unfold transform, transform_loop. rewrite !fold_left_app. reflexivity.
Qed.

(** ** Claims on the CamelCase transformer *)

(** C7.  In capitalize-first mode, [http_status] becomes [HTTPStatus],
    [foo2bar] becomes [Foo2Bar] and [123abc] becomes [_123Abc], whatever
    the Unicode tables say above ASCII. *)
Theorem transform_examples (U : Unicode) :
  transform (go "http_status") true = go "HTTPStatus"
  /\ transform (go "foo2bar") true = go "Foo2Bar"
  /\ transform (go "123abc") true = go "_123Abc".
Proof.
  repeat split; vm_compute; reflexivity.
Qed.

(** C5, as stated, fails: the run of three underscores of [a___b] leaves
    two literal underscores in the output, not one. *)
Lemma underscore_run_of_three :
  transform (U := latin1) (go "a___b") true = go "A__B"
  /\ count_occ Z.eq_dec (transform (U := latin1) (go "a___b") true)
       underscore_rune = 2%nat.
Proof.
  split; vm_compute; reflexivity.
Qed.

(** C5, amended.  A run of [n + 1] consecutive underscores that follows a
    prefix not ending in an underscore writes exactly [n] literal
    underscores to the output, after the pending word: none for a single
    underscore, one for a run of two, two for a run of three.  The state
    after the run, the output of the whole transformer, and the family
    [a_..._b] are given. *)
Theorem underscore_run_contribution (U : Unicode) (initialUpperCase : bool)
  (pre post : gostring) (n : nat) :
  let st := transform_loop initialUpperCase transform_init pre in
  CharKind_eqb (lastKind st) underscore = false ->
  transform_loop initialUpperCase st (repeat underscore_rune (S n))
  = {| result := result (addCurrent initialUpperCase st)
                 ++ repeat underscore_rune n;
       current := [];
       lastKind := underscore |}
  /\ (exists rest,
        transform (pre ++ repeat underscore_rune (S n) ++ post)
                  initialUpperCase
        = result (addCurrent initialUpperCase st)
          ++ repeat underscore_rune n ++ rest)
  /\ transform (go "a" ++ repeat underscore_rune (S n) ++ go "b") true
     = go "A" ++ repeat underscore_rune n ++ go "B".
Proof.
  intros st Hk. subst st.
  split; [apply underscore_run_state, Hk|]. split.
  - rewrite transform_app3.
    rewrite (underscore_run_state initialUpperCase _ n Hk).
    match goal with
    | |- context [transform_loop _ ?s post] =>
        destruct (transform_run_result initialUpperCase s post) as [w Hw]
    end.
    rewrite Hw. simpl.
    exists w. rewrite <- app_assoc. reflexivity.
  - rewrite transform_app3.
    rewrite underscore_run_state by reflexivity.
    vm_compute addCurrent. unfold transform_finish. simpl.
    reflexivity.
Qed.

(** C5, amended, at [a___]: the state after the run of three. *)
Lemma underscore_run_contribution_witness :
  transform_loop (U := latin1) true
    (transform_loop (U := latin1) true transform_init (go "a")) (go "___")
  = {| result := go "A__"; current := []; lastKind := underscore |}.
Proof.
  exact (proj1 (underscore_run_contribution latin1 true (go "a") (go "b") 2
                  eq_refl)).
Defined.




(** ** Claims on the type-prefix deriver *)

Lemma is_empty_app_single (s : gostring) (x : rune) :
  is_empty (s ++ [x]) = false.
Proof. destruct s; reflexivity. Qed.

(** The loop over the package, from any state of [(ret, makeUpper)]:
    [ret] is non-empty exactly when a character has been emitted. *)
Lemma typePrefix_loop_scan {U : Unicode} (package : gostring) :
  forall (ret : gostring) (makeUpper : bool),
    fst (fold_left typePrefix_step package (ret, makeUpper))
    = ret ++ spec_prefix_scan makeUpper (negb (is_empty ret)) package.
Proof.
  induction package as [|c rest IH]; intros ret makeUpper; simpl.
  - symmetry. apply app_nil_r.
  - destruct (c =? underscore_rune); [apply IH|].
    destruct (c =? dot_rune).
    + rewrite IH, is_empty_app_single, <- app_assoc. reflexivity.
    + rewrite negb_involutive.
      destruct (is_empty ret && unicode_IsNumber c); destruct makeUpper;
        rewrite IH, is_empty_app_single, <- ?app_assoc; reflexivity.
Qed.

(** C6.  [typePrefixInternal] is the deriver of spec 4.2: a non-empty
    override verbatim, the empty string for an empty package, and otherwise
    the scan (word starts upper-cased, [_] dropped, [.] turned into [_], a
    [_] before a leading number) followed by one [_].  In particular
    [foo.bar_baz] gives [Foo_BarBaz_], the empty package gives the empty
    prefix, the override [XYZ] gives [XYZ] for any package, and a package
    starting with a digit gets a leading [_]. *)
Theorem typePrefixInternal_spec (U : Unicode) :
  (forall (package : gostring) (options : option FileOptions),
     typePrefixInternal package options
     = spec_prefix package (explicit_override options))
  /\ typePrefixInternal (go "foo.bar_baz") None = go "Foo_BarBaz_"
  /\ typePrefixInternal (go "") None = go ""
  /\ (forall package : gostring,
        typePrefixInternal package (Some {| swift_prefix := Some (go "XYZ") |})
        = go "XYZ")
  /\ typePrefixInternal (go "1st.pkg") None = go "_1st_Pkg_".
Proof.
  split; [|repeat split; reflexivity].
  intros package options.
  assert (typePrefixInternal package None = spec_prefix package None) as E.
  { destruct package as [|c rest]; [reflexivity|].
    unfold typePrefixInternal, spec_prefix.
    change (GetSwiftPrefix None) with (@nil rune). cbn [is_empty negb].
    pose proof (typePrefix_loop_scan (c :: rest) [] true) as H.
    assert (forall (p : gostring * bool) (x : gostring),
               fst p = x ->
               (let '(ret, _) := p in ret ++ [underscore_rune])
               = x ++ [underscore_rune]) as Hp
      by (intros [ret b] x; simpl; intros ->; reflexivity).
    exact (Hp _ _ H). }
  destruct options as [[[[|c o]|]]|]; try exact E; reflexivity.
Qed.

(** ** Claims on the resolver *)

(** C2, as stated, fails: the code does not run local names through the
    CamelCase transformer, and it sanitizes a top-level name after the
    prefix has been put in front of it. *)
Lemma resolver_differs_from_claim :
  fullNameOfMessage (U := latin1) example_nested_foo_bar = go "Outer.foo_bar"
  /\ spec_resolve_message (U := latin1) example_nested_foo_bar
     = go "Outer.FooBar"
  /\ fullNameOfMessage (U := latin1) example_Type_in_package = go "A_Type"
  /\ spec_resolve_message (U := latin1) example_Type_in_package
     = go "A_TypeMessage".
Proof.
  repeat split; vm_compute; reflexivity.
Qed.

(** C2, amended.  The generated identifier of a nested message or enum is
    its parent message's generated identifier, a dot, and the node's local
    name, as declared, through the sanitizer of the node's kind.  The
    generated identifier of a top-level message is the sanitizer for
    messages applied to the file's prefix followed by the local name. *)
Theorem resolver_equations (U : Unicode) :
  (forall (container : MessageDescriptor) (decl : DescriptorProto),
     fullNameOfMessage (NestedMessage container decl)
     = fullNameOfMessage container ++ go "."
       ++ sanitize Message (msg_name decl))
  /\ (forall (container : MessageDescriptor) (name : gostring),
        fullNameOfEnum (NestedEnum container name)
        = fullNameOfMessage container ++ go "." ++ sanitize Enum name)
  /\ (forall (file : FileDescriptorProto) (decl : DescriptorProto),
        fullNameOfMessage (TopLevelMessage file decl)
        = sanitize Message
            (typePrefixInternal (file_package file) (file_options file)
             ++ msg_name decl)).
Proof.
  repeat split; reflexivity.
Qed.

(** C4, as stated, fails on its second half: [Message] nested in [Outer]
    resolves to [Outer.Message]. *)
Lemma nested_Message_keeps_one_suffix :
  fullNameOfMessage (U := latin1) example_nested_Message = go "Outer.Message"
  /\ fullNameOfMessage (U := latin1) example_nested_Message
     <> go "Outer.MessageMessage".
Proof.
  split; vm_compute; [reflexivity | discriminate].
Qed.

(** C4, amended.  A top-level message [Type], in a file with no package
    and no override, gets the identifier [TypeMessage]; a message
    [Message] nested in the top-level message [Outer] resolves to
    [Outer.Message]: [Message] is not a reserved name, its stem after the
    suffix is stripped is the empty string, and the suffix is put back. *)
Theorem reserved_name_examples (U : Unicode) :
  fullNameOfMessage example_Type = go "TypeMessage"
  /\ fullNameOfMessage example_nested_Message = go "Outer.Message"
  /\ is_reserved (go "Message") = false
  /\ sanitizeTypeName (go "") (go "Message") = Some (go "").
Proof.
  repeat split; reflexivity.
Qed.

(** ** The emitter *)

(** C1.  On the example of spec section 8 the emitter writes the record of
    [Foo] and the record of its oneof, and stops: the loop of [main] never
    asks a message for its nested messages or enums.  The walk of spec 4.6
    has a third record, for [Inner]. *)
Theorem emit_example_file (U : Unicode) :
  emit_file example_file
  = [ (go "a.b.Foo", go "A_B_Foo");
      (go "a.b.Foo.bar_baz", go "A_B_Foo.OneOf_BarBaz") ]
  /\ spec_walk_file example_file
     = [ (go "a.b.Foo", go "A_B_Foo");
         (go "a.b.Foo.bar_baz", go "A_B_Foo.OneOf_BarBaz");
         (go "a.b.Foo.Inner", go "A_B_Foo.Inner") ].
Proof.
  split; vm_compute; reflexivity.
Qed.

(** The records written for a top-level message depend on its name, its
    oneofs, and the package and options of its file, and on nothing
    else. *)
Lemma emit_message_top_level {U : Unicode} (f f' : FileDescriptorProto)
  (decl : DescriptorProto) :
  file_package f = file_package f' ->
  file_options f = file_options f' ->
  emit_message (TopLevelMessage f decl)
  = emit_message (TopLevelMessage f' (without_nested decl)).
Proof.
  intros Hp Ho. unfold emit_message, message_Oneofs.
  assert (message_FullName (TopLevelMessage f decl)
          = message_FullName (TopLevelMessage f' (without_nested decl))) as E1
    by (simpl; rewrite Hp; reflexivity).
  assert (fullNameOfMessage (TopLevelMessage f decl)
          = fullNameOfMessage (TopLevelMessage f' (without_nested decl))) as E2
    by (simpl; unfold typePrefix, message_Name; simpl; rewrite Hp, Ho;
        reflexivity).
  rewrite E1, E2. simpl message_decl. simpl oneof_decl.
  rewrite !map_map. apply f_equal. apply map_ext. intros name.
  unfold oneof_FullName, fullNameOfOneof. simpl oneof_parent.
  rewrite E1, E2. reflexivity.
Qed.

(** For every file, the emitter writes what it would write for the file
    with all nested messages and nested enums removed. *)
Lemma emit_file_ignores_nested {U : Unicode} (file : FileDescriptorProto) :
  emit_file file = emit_file (file_without_nested file).
Proof.
  unfold emit_file, file_Messages, file_Enums. f_equal.
  - simpl message_type. rewrite map_map.
    rewrite !flat_map_concat_map, !map_map. f_equal.
    apply map_ext. intros decl.
    apply emit_message_top_level; reflexivity.
  - simpl file_enum_type. rewrite !map_map. apply map_ext. intros name.
    reflexivity.
Qed.

(** A top-level enum is sanitized by [sanitizeMessage] (line 98), a nested
    one by [sanitizeEnum] (line 95). *)
Lemma top_level_enum_suffix {U : Unicode} :
  fullNameOfEnum (TopLevelEnum (simple_file "" []) (go "Type"))
  = go "TypeMessage"
  /\ fullNameOfEnum (NestedEnum example_Outer_descriptor (go "Type"))
     = go "Outer.TypeEnum".
Proof.
  split; reflexivity.
Qed.

(** * Further properties of the code *)

(** ** The sanitizer keeps names apart and out of the reserved table *)

(** Every reserved word that ends in a suffix has a stem the sanitizer
    leaves alone (the table holds one such word, [decodeMessage]). *)
Lemma reserved_stems_checked (k : EntityKind) :
  forallb
    (fun w =>
       negb (HasSuffix w (disambiguator k))
       || eqb_runes (sanitize k (strip_suffix w (disambiguator k)))
                    (strip_suffix w (disambiguator k)))
    reservedNames = true.
Proof. destruct k; vm_compute; reflexivity. Qed.

Lemma reserved_suffix_stem (k : EntityKind) (s : gostring) :
  is_reserved (s ++ disambiguator k) = true -> sanitize k s = s.
Proof.
  unfold is_reserved. intros H.
  apply existsb_exists in H as (w & Hin & Hw).
  apply eqb_runes_spec in Hw.
  pose proof (reserved_stems_checked k) as Hc.
  rewrite forallb_forall in Hc. specialize (Hc w Hin).
  rewrite <- Hw, HasSuffix_app, strip_suffix_app in Hc.
  simpl in Hc. apply eqb_runes_spec in Hc. exact Hc.
Qed.

(** What the sanitizer returns is never a reserved word and never a run
    of underscores, whatever the candidate and the kind. *)
Theorem sanitize_never_collides (k : EntityKind) (s : gostring) :
  is_reserved (sanitize k s) = false
  /\ isAllUnderscore (sanitize k s) = false.
Proof.
  destruct (sanitize_shape k s) as [E | E].
  - assert (is_reserved s || isAllUnderscore s = false) as H.
    { destruct (is_reserved s || isAllUnderscore s) eqn:Hc; [|reflexivity].
      apply (sanitize_collision k) in Hc. rewrite E in Hc.
      exfalso. apply (disambiguator_neq k s). symmetry. exact Hc. }
    apply orb_false_iff in H. rewrite E. exact H.
  - rewrite E. split.
    + destruct (is_reserved (s ++ disambiguator k)) eqn:Hr; [|reflexivity].
      apply reserved_suffix_stem in Hr. rewrite E in Hr.
      exfalso. apply (disambiguator_neq k s). exact Hr.
    + apply isAllUnderscore_app, disambiguator_not_underscores.
Qed.

Lemma sanitize_eq_inv (k : EntityKind) (s1 s2 : gostring) :
  sanitize k s1 = sanitize k s2 -> s1 = s2.
Proof.
  intros Heq.
  assert (forall a b : gostring,
             sanitize k a = a -> sanitize k b = b ++ disambiguator k ->
             sanitize k a <> sanitize k b) as Hmixed.
  { intros a b Ea Eb H. rewrite Ea, Eb in H. subst a.
    rewrite sanitize_app, Eb in Ea.
    apply (disambiguator_neq k (b ++ disambiguator k)).
    destruct (is_reserved (b ++ disambiguator k)); exact Ea. }
  destruct (sanitize_shape k s1) as [E1 | E1];
    destruct (sanitize_shape k s2) as [E2 | E2].
  - congruence.
  - exfalso. exact (Hmixed s1 s2 E1 E2 Heq).
  - exfalso. exact (Hmixed s2 s1 E2 E1 (eq_sym Heq)).
  - rewrite E1, E2 in Heq. apply app_inv_tail in Heq. exact Heq.
Qed.

(** Two different candidates never sanitize to the same identifier. *)
Theorem sanitize_injective (k : EntityKind) (s1 s2 : gostring) :
  s1 <> s2 -> sanitize k s1 <> sanitize k s2.
Proof.
  intros Hne Heq. exact (Hne (sanitize_eq_inv k s1 s2 Heq)).
Qed.

(** [Type] and [TypeMessage] stay apart. *)
Lemma sanitize_injective_witness :
  go "Type" <> go "TypeMessage"
  /\ sanitize Message (go "Type") <> sanitize Message (go "TypeMessage").
Proof.
  assert (go "Type" <> go "TypeMessage") as H by discriminate.
  split; [exact H | exact (sanitize_injective Message _ _ H)].
Defined.

(** ** Oneofs: the sanitizer never changes a oneof's name *)

Lemma reserved_without_OneOf_prefix :
  forallb (fun w => negb (eqb_runes (firstn 6 w) (go "OneOf_")))
          reservedNames = true.
Proof. vm_compute. reflexivity. Qed.

Lemma OneOf_not_reserved (s : gostring) :
  is_reserved (go "OneOf_" ++ s) = false.
Proof.
  destruct (is_reserved (go "OneOf_" ++ s)) eqn:H; [|reflexivity].
  unfold is_reserved in H. apply existsb_exists in H as (w & Hin & Hw).
  apply eqb_runes_spec in Hw.
  pose proof reserved_without_OneOf_prefix as Hc.
  rewrite forallb_forall in Hc. specialize (Hc w Hin).
  rewrite <- Hw in Hc. discriminate Hc.
Qed.

Lemma HasSuffix_OneOf_short (s : gostring) :
  (length s < 5)%nat -> HasSuffix (go "OneOf_" ++ s) (go "Oneof") = false.
Proof.
  destruct s as [|a [|b [|c [|d [|e s]]]]]; simpl; intros H;
    try lia; reflexivity.
Qed.

Lemma HasSuffix_app_long (p s d : gostring) :
  (length d <= length s)%nat -> HasSuffix (p ++ s) d = HasSuffix s d.
Proof.
  intros H. unfold HasSuffix. rewrite length_app.
  replace (length p + length s - length d)%nat
    with (length p + (length s - length d))%nat by lia.
  rewrite skipn_app.
  rewrite (skipn_all2 p) by lia.
  replace (length p + (length s - length d) - length p)%nat
    with (length s - length d)%nat by lia.
  simpl. f_equal.
  pose proof (proj2 (Nat.leb_le _ _) H) as Hb. rewrite Hb.
  apply Nat.leb_le. lia.
Qed.

Lemma sanitize_OneOf_prefix (n : nat) :
  forall s : gostring,
    (length s <= n)%nat ->
    sanitize Oneof (go "OneOf_" ++ s) = go "OneOf_" ++ s.
Proof.
  induction n as [|n IH]; intros s Hn.
  - destruct s; [reflexivity | simpl in Hn; lia].
  - destruct (HasSuffix (go "OneOf_" ++ s) (go "Oneof")) eqn:Hs.
    + assert (5 <= length s)%nat as Hlen.
      { destruct (Nat.lt_ge_cases (length s) 5) as [Hlt | Hge]; [|exact Hge].
        rewrite (HasSuffix_OneOf_short s Hlt) in Hs. discriminate Hs. }
      rewrite HasSuffix_app_long in Hs by exact Hlen.
      apply HasSuffix_split in Hs. rewrite Hs, app_assoc.
      change (go "Oneof") with (disambiguator Oneof).
      rewrite sanitize_app, <- app_assoc, OneOf_not_reserved, IH.
      * rewrite app_assoc. reflexivity.
      * rewrite strip_suffix_length. simpl length. lia.
    + apply sanitize_plain; [apply OneOf_not_reserved | reflexivity | exact Hs].
Qed.

(** For every oneof, the relative name is [OneOf_] followed by the
    CamelCase of the declared name, and the full name is the parent's
    identifier, [.OneOf_] and that CamelCase: the sanitizer tagged [Oneof]
    never appends its suffix. *)
Theorem oneof_name_is_never_suffixed (U : Unicode) (oneof : OneofDescriptor) :
  relativeNameOfOneof oneof
  = go "OneOf_" ++ transform (oneof_name oneof) true
  /\ fullNameOfOneof oneof
     = fullNameOfMessage (oneof_parent oneof) ++ go ".OneOf_"
       ++ transform (oneof_name oneof) true.
Proof.
  assert (relativeNameOfOneof oneof
          = go "OneOf_" ++ transform (oneof_name oneof) true) as E.
  { unfold relativeNameOfOneof, toUpperCamelCase.
    apply (sanitize_OneOf_prefix _ _ (Nat.le_refl _)). }
  split; [exact E|].
  unfold fullNameOfOneof. rewrite E. reflexivity.
Qed.

(** ** The transformer: empty names and trailing underscores *)

Lemma addCurrent_nonempty {U : Unicode} (i : bool) (st : TransformState) :
  current st <> [] -> result (addCurrent i st) <> [].
Proof.
  unfold addCurrent. destruct (current st) as [|c cur]; [congruence|].
  intros _. simpl.
  destruct (is_empty (result st) && negb i);
    [|destruct (appreviations (c :: cur))];
    simpl; intros H; apply app_eq_nil in H as [_ H]; discriminate H.
Qed.

Lemma transform_finish_nonempty {U : Unicode} (i : bool) (st : TransformState) :
  current st <> [] \/ lastKind st = underscore \/ result st <> [] ->
  transform_finish i st <> [].
Proof.
  unfold transform_finish. intros [H | [H | H]].
  - pose proof (addCurrent_nonempty i st H) as Hr.
    destruct (CharKind_eqb (lastKind st) underscore); [|exact Hr].
    intros E. apply app_eq_nil in E as [_ E]. discriminate E.
  - rewrite H. simpl. intros E. apply app_eq_nil in E as [_ E].
    discriminate E.
  - destruct (addCurrent_result i st) as [w Hw].
    assert (result (addCurrent i st) <> []) as Hr.
    { rewrite Hw. intros E. apply app_eq_nil in E as [E _]. exact (H E). }
    destruct (CharKind_eqb (lastKind st) underscore); [|exact Hr].
    intros E. apply app_eq_nil in E as [_ E]. discriminate E.
Qed.

(** After any iteration of the loop something is pending or written. *)
Lemma transform_step_progress {U : Unicode} (i : bool) (st : TransformState)
  (c : rune) :
  let st' := transform_step i st c in
  current st' <> [] \/ lastKind st' = underscore \/ result st' <> [].
Proof.
  assert (forall (l : list rune) (x : rune), l ++ [x] <> []) as Hne
    by (intros l x E; apply app_eq_nil in E as [_ E]; discriminate E).
  unfold transform_step. destruct (toCharKind c) eqn:K; simpl.
  - left. destruct (negb (CharKind_eqb (lastKind st) digit));
      match goal with |- context [if ?b then _ else _] => destruct b end;
      apply Hne.
  - left. destruct (negb (CharKind_eqb (lastKind st) lower)
                    && negb (CharKind_eqb (lastKind st) upper)); apply Hne.
  - left. destruct (negb (CharKind_eqb (lastKind st) upper)); apply Hne.
  - right. left. reflexivity.
  - match goal with |- context [if ?b then _ else _] => destruct b end; simpl.
    + right. right. intros E. apply app_eq_nil in E as [_ E]. discriminate E.
    + left. apply Hne.
Qed.

(** The transformer returns the empty string for the empty name and for
    no other name, in either mode. *)
Theorem transform_empty_iff (U : Unicode) (initialUpperCase : bool)
  (name : gostring) :
  transform name initialUpperCase = [] <-> name = [].
Proof.
  split; [|intros ->; reflexivity].
  intros H. destruct name as [|r name]; [reflexivity|]. exfalso.
  assert (r :: name <> []) as Hn by discriminate.
  destruct (exists_last Hn) as (pre & c & E). rewrite E in H. revert H.
  rewrite transform_app. simpl.
  apply transform_finish_nonempty, transform_step_progress.
Qed.

(** A run of underscores that ends the name is kept in full: after a
    prefix that does not end in an underscore, [n + 1] trailing
    underscores leave [n + 1] underscores at the end of the output.  In
    particular a name made of underscores only is returned as it is. *)
Theorem transform_trailing_underscores (U : Unicode) (initialUpperCase : bool)
  (pre : gostring) (n : nat) :
  let st := transform_loop initialUpperCase transform_init pre in
  CharKind_eqb (lastKind st) underscore = false ->
  transform (pre ++ repeat underscore_rune (S n)) initialUpperCase
  = result (addCurrent initialUpperCase st) ++ repeat underscore_rune (S n).
Proof.
  intros st Hk. subst st. rewrite transform_app.
  rewrite (underscore_run_state initialUpperCase _ n Hk).
  unfold transform_finish. simpl.
  rewrite <- app_assoc.
  change (underscore_rune :: repeat underscore_rune n)
    with (repeat underscore_rune (S n)).
  rewrite <- repeat_cons. reflexivity.
Qed.

(** [foo__] keeps both underscores, and [___] is returned as it is. *)
Lemma transform_trailing_underscores_witness :
  transform (U := latin1) (go "foo__") true = go "Foo__"
  /\ transform (U := latin1) (go "___") false = go "___".
Proof.
  split.
  - exact (transform_trailing_underscores latin1 true (go "foo") 1 eq_refl).
  - exact (transform_trailing_underscores latin1 false [] 2 eq_refl).
Defined.

(** ** The classifier and the transformer on ASCII *)

(** A boolean property checked on the 128 ASCII runes holds of every
    ASCII rune. *)
Lemma ascii_forall (P : rune -> bool) :
  forallb P (map Z.of_nat (seq 0 128)) = true ->
  forall c : rune, is_ascii c = true -> P c = true.
Proof.
  intros H c Hc. rewrite forallb_forall in H. apply H.
  unfold is_ascii, in_range, MaxASCII in Hc.
  apply andb_true_iff in Hc as [H0 H1].
  apply Z.leb_le in H0. apply Z.leb_le in H1.
  rewrite <- (Z2Nat.id c) by exact H0.
  apply in_map, in_seq. lia.
Qed.

Lemma in_range_bounds (lo hi c : rune) :
  in_range lo hi c = true -> lo <= c <= hi.
Proof.
  unfold in_range. intros H. apply andb_true_iff in H as [H0 H1].
  apply Z.leb_le in H0. apply Z.leb_le in H1. lia.
Qed.

Lemma is_ascii_of_bounds (c : rune) : 0 <= c <= 127 -> is_ascii c = true.
Proof.
  intros H. unfold is_ascii, in_range, MaxASCII.
  apply andb_true_iff. split; apply Z.leb_le; lia.
Qed.

Lemma word_rune_is_ascii (c : rune) : is_word_rune c = true -> is_ascii c = true.
Proof.
  unfold is_word_rune, toCharKind.
  destruct (in_range 48 57 c) eqn:H1;
    [intros _; apply in_range_bounds in H1; apply is_ascii_of_bounds; lia|].
  destruct (in_range 97 122 c) eqn:H2;
    [intros _; apply in_range_bounds in H2; apply is_ascii_of_bounds; lia|].
  destruct (in_range 65 90 c) eqn:H3;
    [intros _; apply in_range_bounds in H3; apply is_ascii_of_bounds; lia|].
  destruct (c =? underscore_rune) eqn:H4; [|discriminate].
  intros _. apply Z.eqb_eq in H4. subst c. reflexivity.
Qed.

Lemma classifier_on_ascii (c : rune) :
  is_ascii c = true ->
  isSwiftIdentifierCharacter c = is_word_rune c
  /\ isSwiftIdentifierHeadCharacter c = is_word_rune c && negb (is_digit c).
Proof.
  intros Hc.
  assert ((eqb (isSwiftIdentifierCharacter c) (is_word_rune c)
           && eqb (isSwiftIdentifierHeadCharacter c)
                  (is_word_rune c && negb (is_digit c))) = true) as H.
  { revert c Hc. apply ascii_forall. vm_compute. reflexivity. }
  apply andb_true_iff in H as [H1 H2].
  apply eqb_prop in H1. apply eqb_prop in H2. split; assumption.
Qed.

(** A string of letters, digits and underscores that does not start with
    a digit is accepted by the classifier. *)
Lemma word_runes_identifier_shaped (s : gostring) :
  forallb is_word_rune s = true -> starts_with_digit s = false ->
  identifier_shaped s = true.
Proof.
  intros Hw Hs. unfold identifier_shaped. apply andb_true_iff. split.
  - rewrite forallb_forall in *. intros c Hin. specialize (Hw c Hin).
    destruct (classifier_on_ascii c (word_rune_is_ascii c Hw)) as [-> _].
    exact Hw.
  - destruct s as [|c s]; [reflexivity|].
    simpl in Hw, Hs. apply andb_true_iff in Hw as [Hc _].
    destruct (classifier_on_ascii c (word_rune_is_ascii c Hc)) as [_ ->].
    rewrite Hc, Hs. reflexivity.
Qed.

(** Every character valid at the head of an identifier is valid inside
    one.  On ASCII, the characters valid inside an identifier are exactly
    the letters, digits and the underscore, and the ones valid at its head
    exactly the letters and the underscore; so every ASCII character that
    [toCharKind] classes as [other] is invalid in both positions. *)
Theorem identifier_classifier_on_ascii (c : rune) :
  (isSwiftIdentifierHeadCharacter c = true ->
   isSwiftIdentifierCharacter c = true)
  /\ (is_ascii c = true ->
      isSwiftIdentifierCharacter c = is_word_rune c
      /\ isSwiftIdentifierHeadCharacter c
         = is_word_rune c && negb (is_digit c)).
Proof.
  split; [|apply classifier_on_ascii].
  intros H. unfold isSwiftIdentifierCharacter. rewrite H.
  destruct (in_range 48 57 c); [reflexivity|].
  match goal with |- context [if ?b then _ else _] => destruct b end;
    reflexivity.
Qed.

(** The classifier at the letter [a], the digit [7] and the space. *)
Lemma identifier_classifier_on_ascii_witness :
  isSwiftIdentifierCharacter 97 = true
  /\ (isSwiftIdentifierCharacter 55 = true
      /\ isSwiftIdentifierHeadCharacter 55 = false)
  /\ (isSwiftIdentifierCharacter 32 = false
      /\ isSwiftIdentifierHeadCharacter 32 = false).
Proof.
  split; [exact (proj1 (identifier_classifier_on_ascii 97) eq_refl)|].
  split.
  - exact (proj2 (identifier_classifier_on_ascii 55) eq_refl).
  - exact (proj2 (identifier_classifier_on_ascii 32) eq_refl).
Defined.

(** ** ASCII names give identifiers *)

Section AsciiNames.

Context {U : Unicode}.
Variable initialUpperCase : bool.

(** The runes the loop keeps in [current] on ASCII input: lower-case
    letters and digits. *)
Let lowdig (c : rune) : bool :=
  CharKind_eqb (toCharKind c) lower || CharKind_eqb (toCharKind c) digit.

(** Facts about single ASCII runes, each checked on the 128 of them. *)
Lemma ascii_word_facts (c : rune) :
  lowdig c = true ->
  is_word_rune c = true
  /\ is_word_rune (unicode_ToUpper c) = true
  /\ (is_digit c = false -> is_digit (unicode_ToUpper c) = false).
Proof.
  intros H.
  assert (is_ascii c = true) as Hc.
  { apply word_rune_is_ascii. unfold is_word_rune.
    unfold lowdig in H. destruct (toCharKind c); try discriminate; reflexivity. }
  assert (implb (lowdig c)
            (is_word_rune c && is_word_rune (unicode_ToUpper c)
             && implb (negb (is_digit c))
                      (negb (is_digit (unicode_ToUpper c)))) = true) as F.
  { revert c Hc H. intros c Hc _. revert c Hc.
    apply ascii_forall. vm_compute. reflexivity. }
  rewrite H in F. simpl in F.
  apply andb_true_iff in F as [F F3]. apply andb_true_iff in F as [F1 F2].
  repeat split; try assumption.
  intros Hd. rewrite Hd in F3. simpl in F3.
  apply negb_true_iff in F3. exact F3.
Qed.

Lemma ascii_upper_facts (c : rune) :
  toCharKind c = upper ->
  lowdig (unicode_ToLower c) = true /\ is_digit (unicode_ToLower c) = false.
Proof.
  intros H.
  assert (is_ascii c = true) as Hc
    by (apply word_rune_is_ascii; unfold is_word_rune; rewrite H; reflexivity).
  assert (implb (CharKind_eqb (toCharKind c) upper)
            (lowdig (unicode_ToLower c)
             && negb (is_digit (unicode_ToLower c))) = true) as F.
  { revert c Hc H. intros c Hc _. revert c Hc.
    apply ascii_forall. vm_compute. reflexivity. }
  rewrite H in F. simpl in F. apply andb_true_iff in F as [F1 F2].
  apply negb_true_iff in F2. split; assumption.
Qed.

Lemma ascii_other_facts (c : rune) :
  is_ascii c = true -> toCharKind c = other ->
  isSwiftIdentifierHeadCharacter c = false
  /\ isSwiftIdentifierCharacter c = false
  /\ forallb is_word_rune (decimal c) = true.
Proof.
  intros Hc H.
  assert (implb (CharKind_eqb (toCharKind c) other)
            (negb (isSwiftIdentifierHeadCharacter c)
             && negb (isSwiftIdentifierCharacter c)
             && forallb is_word_rune (decimal c)) = true) as F.
  { revert c Hc H. intros c Hc _. revert c Hc.
    apply ascii_forall. vm_compute. reflexivity. }
  rewrite H in F. simpl in F.
  apply andb_true_iff in F as [F F3]. apply andb_true_iff in F as [F1 F2].
  apply negb_true_iff in F1. apply negb_true_iff in F2.
  repeat split; assumption.
Qed.

Lemma forallb_implies (P Q : rune -> bool) (l : list rune) :
  (forall c, P c = true -> Q c = true) ->
  forallb P l = true -> forallb Q l = true.
Proof.
  intros HPQ H. rewrite forallb_forall in *. intros c Hin.
  apply HPQ, H, Hin.
Qed.

Lemma starts_with_digit_app (a b : gostring) :
  starts_with_digit (a ++ b)
  = if is_empty a then starts_with_digit b else starts_with_digit a.
Proof. destruct a; reflexivity. Qed.

(** The invariant of the loop on ASCII input. *)
Let Inv (st : TransformState) : Prop :=
  forallb is_word_rune (result st) = true
  /\ forallb lowdig (current st) = true
  /\ starts_with_digit (result st) = false
  /\ (is_empty (result st) = true -> starts_with_digit (current st) = false).

Lemma Inv_init : Inv transform_init.
Proof. repeat split. Qed.

(** The word [addCurrent] writes, in each of its three forms. *)
Lemma finalized_word_facts (cur word : gostring) :
  forallb lowdig cur = true ->
  word = cur \/ word = strings_ToUpper cur \/ word = uppercaseFirstCharacter cur ->
  forallb is_word_rune word = true
  /\ (starts_with_digit cur = false -> starts_with_digit word = false).
Proof.
  intros Hcur Hw.
  assert (forallb is_word_rune cur = true) as H1
    by (revert Hcur; apply forallb_implies; intros c Hc;
        apply (ascii_word_facts c Hc)).
  assert (forallb is_word_rune (strings_ToUpper cur) = true) as H2.
  { unfold strings_ToUpper. rewrite forallb_forall in *. intros x Hx.
    apply in_map_iff in Hx as (c & <- & Hc).
    apply (ascii_word_facts c (Hcur c Hc)). }
  destruct Hw as [-> | [-> | ->]].
  - split; [exact H1 | auto].
  - split; [exact H2|]. destruct cur as [|c cur]; [auto|].
    simpl in *. apply andb_true_iff in Hcur as [Hc _].
    apply (ascii_word_facts c Hc).
  - destruct cur as [|c cur]; [split; auto|].
    simpl in *. apply andb_true_iff in Hcur as [Hc _].
    apply andb_true_iff in H1 as [_ H1].
    destruct (ascii_word_facts c Hc) as (_ & Hu & Hd).
    split; [rewrite Hu; exact H1 | exact Hd].
Qed.

Lemma addCurrent_Inv (st : TransformState) :
  Inv st -> Inv (addCurrent initialUpperCase st).
Proof.
  intros (HA & HB & HC & HD). unfold addCurrent.
  destruct (is_empty (current st)) eqn:He; [repeat split; assumption|].
  set (word := if is_empty (result st) && negb initialUpperCase
               then current st
               else if appreviations (current st)
                    then strings_ToUpper (current st)
                    else uppercaseFirstCharacter (current st)).
  destruct (finalized_word_facts (current st) word HB) as [Hw1 Hw2].
  { subst word. destruct (is_empty (result st) && negb initialUpperCase);
      [now left|]. destruct (appreviations (current st)); auto. }
  unfold Inv. simpl. repeat split.
  - rewrite forallb_app, HA, Hw1. reflexivity.
  - rewrite starts_with_digit_app.
    destruct (is_empty (result st)) eqn:Hr; [apply Hw2, HD; reflexivity|].
    exact HC.
Qed.

Lemma WriteRune_underscore_Inv (st : TransformState) :
  Inv st ->
  Inv (WriteRune underscore_rune st)
  /\ is_empty (result (WriteRune underscore_rune st)) = false.
Proof.
  intros (HA & HB & HC & HD). unfold Inv. simpl.
  rewrite forallb_app, HA, starts_with_digit_app, is_empty_app_single.
  repeat split; try assumption; try discriminate.
  destruct (is_empty (result st)); [reflexivity | exact HC].
Qed.

Lemma append_current_Inv (st : TransformState) (x : rune) :
  Inv st -> lowdig x = true ->
  is_empty (result st) = false \/ is_digit x = false ->
  Inv (append_current x st).
Proof.
  intros (HA & HB & HC & HD) Hx Hor. unfold Inv. simpl.
  rewrite forallb_app, HB. simpl. rewrite Hx.
  repeat split; try assumption.
  intros He. rewrite starts_with_digit_app.
  destruct Hor as [Hor | Hor]; [congruence|].
  destruct (is_empty (current st)); [exact Hor | exact (HD He)].
Qed.

Lemma Inv_lastKind (st : TransformState) (k : CharKind) :
  Inv st ->
  Inv {| result := result st; current := current st; lastKind := k |}.
Proof. intros H. exact H. Qed.

Lemma transform_step_Inv (st : TransformState) (c : rune) :
  is_ascii c = true -> Inv st -> Inv (transform_step initialUpperCase st c).
Proof.
  intros Hc HI.
  pose proof (addCurrent_Inv st HI) as HI1.
  destruct (toCharKind c) eqn:K.
  - unfold transform_step. rewrite K. apply Inv_lastKind.
    set (st1 := if negb (CharKind_eqb (lastKind st) digit)
                then addCurrent initialUpperCase st else st).
    assert (Inv st1) as H1 by (subst st1; destruct (negb _); assumption).
    set (st2 := if is_empty (result st1)
                then WriteRune underscore_rune st1 else st1).
    assert (Inv st2 /\ is_empty (result st2) = false) as [H2 H2e].
    { subst st2. destruct (is_empty (result st1)) eqn:He.
      - apply WriteRune_underscore_Inv, H1.
      - split; assumption. }
    apply append_current_Inv; [exact H2 | | left; exact H2e].
    unfold lowdig. rewrite K. reflexivity.
  - unfold transform_step. rewrite K. apply Inv_lastKind.
    apply append_current_Inv.
    + destruct (negb _ && negb _); assumption.
    + unfold lowdig. rewrite K. reflexivity.
    + right. unfold is_digit. rewrite K. reflexivity.
  - unfold transform_step. rewrite K. apply Inv_lastKind.
    destruct (ascii_upper_facts c K) as [Hl Hd].
    apply append_current_Inv; [destruct (negb _); assumption | exact Hl |].
    right. exact Hd.
  - unfold transform_step. rewrite K. apply Inv_lastKind.
    destruct (CharKind_eqb (lastKind st) underscore); [|exact HI1].
    apply WriteRune_underscore_Inv, HI1.
  - rewrite (transform_step_other initialUpperCase st c K). cbv zeta.
    destruct (ascii_other_facts c Hc K) as (Hh & Hi & Hdec).
    rewrite Hh, Hi.
    destruct HI1 as (HA & HB & HC & HD).
    replace (if is_empty (result (addCurrent initialUpperCase st))
             then false else false) with false
      by (destruct (is_empty _); reflexivity).
    unfold Inv. simpl.
    rewrite forallb_app, HA, starts_with_digit_app. simpl.
    repeat split; try assumption.
    destruct (is_empty (result (addCurrent initialUpperCase st)));
      [reflexivity | exact HC].
Qed.

Lemma transform_loop_Inv (name : gostring) :
  forallb is_ascii name = true ->
  forall st : TransformState,
    Inv st -> Inv (transform_loop initialUpperCase st name).
Proof.
  unfold transform_loop.
  induction name as [|c name IH]; intros Hn st HI; [exact HI|].
  simpl in Hn. apply andb_true_iff in Hn as [Hc Hn].
  simpl. apply IH; [exact Hn|]. apply transform_step_Inv; assumption.
Qed.

Lemma transform_finish_Inv (st : TransformState) :
  Inv st ->
  forallb is_word_rune (transform_finish initialUpperCase st) = true
  /\ starts_with_digit (transform_finish initialUpperCase st) = false.
Proof.
  intros HI. unfold transform_finish.
  destruct (addCurrent_Inv st HI) as (HA & _ & HC & _).
  destruct (CharKind_eqb (lastKind st) underscore); [|split; assumption].
  rewrite forallb_app, HA, starts_with_digit_app. split; [reflexivity|].
  destruct (is_empty (result (addCurrent initialUpperCase st)));
    [reflexivity | exact HC].
Qed.

Lemma transform_ascii_word_runes (name : gostring) :
  forallb is_ascii name = true ->
  forallb is_word_rune (transform name initialUpperCase) = true
  /\ starts_with_digit (transform name initialUpperCase) = false.
Proof.
  intros Hn. apply transform_finish_Inv, transform_loop_Inv;
    [exact Hn | apply Inv_init].
Qed.

End AsciiNames.

(** For every name made of ASCII runes, in either mode, the transformer's
    output consists of letters, digits and underscores only, does not start
    with a digit, and is accepted by the program's own classifier: every
    rune is valid inside an identifier and the first is valid at its
    head. *)
Theorem transform_ascii_identifier (U : Unicode) (initialUpperCase : bool)
  (name : gostring) :
  forallb is_ascii name = true ->
  forallb is_word_rune (transform name initialUpperCase) = true
  /\ starts_with_digit (transform name initialUpperCase) = false
  /\ identifier_shaped (transform name initialUpperCase) = true.
Proof.
  intros Hn.
  destruct (transform_ascii_word_runes initialUpperCase name Hn) as [Hw Hd].
  split; [exact Hw|]. split; [exact Hd|].
  apply word_runes_identifier_shaped; assumption.
Qed.

(** The name [2 fast-4u], with a space and a hyphen. *)
Lemma transform_ascii_identifier_witness :
  transform (U := latin1) (go "2 fast-4u") true = go "_2_u32Fast_u454U"
  /\ identifier_shaped (transform (U := latin1) (go "2 fast-4u") true) = true.
Proof.
  split; [reflexivity|].
  exact (proj2 (proj2 (transform_ascii_identifier latin1 true
                         (go "2 fast-4u") eq_refl))).
Defined.

(** ** The prefix of a dotted package *)

Lemma typePrefixInternal_None {U : Unicode} (package : gostring) :
  typePrefixInternal package None
  = if is_empty package then []
    else fst (fold_left typePrefix_step package ([], true))
         ++ [underscore_rune].
Proof.
  unfold typePrefixInternal.
  change (GetSwiftPrefix None) with (@nil rune). cbn [is_empty negb].
  destruct (is_empty package); [reflexivity|].
  assert (forall p : gostring * bool,
             (let '(ret, _) := p in ret ++ [underscore_rune])
             = fst p ++ [underscore_rune]) as Hp
    by (intros [ret b]; reflexivity).
  apply Hp.
Qed.

Lemma typePrefix_loop_dot {U : Unicode} (q : gostring) (st : gostring * bool) :
  fst (fold_left typePrefix_step (dot_rune :: q) st)
  = (fst st ++ [underscore_rune])
    ++ spec_prefix_scan true true q.
Proof.
  destruct st as [ret makeUpper].
  change (fold_left typePrefix_step (dot_rune :: q) (ret, makeUpper))
    with (fold_left typePrefix_step q (ret ++ [underscore_rune], true)).
  rewrite typePrefix_loop_scan, is_empty_app_single. reflexivity.
Qed.

(** Package components compose: without an override, the prefix of
    [p.q] is the prefix of [p] followed by the prefix of [q], when [p] is
    not empty and [q] starts with a rune that is neither an underscore,
    nor a dot, nor a number. *)
Theorem typePrefix_of_dotted_package (U : Unicode) (p rest : gostring)
  (c : rune) :
  is_empty p = false ->
  (c =? underscore_rune) = false ->
  (c =? dot_rune) = false ->
  unicode_IsNumber c = false ->
  typePrefixInternal (p ++ dot_rune :: c :: rest) None
  = typePrefixInternal p None ++ typePrefixInternal (c :: rest) None.
Proof.
  intros Hp Hu Hd Hn. rewrite !typePrefixInternal_None, Hp.
  assert (is_empty (p ++ dot_rune :: c :: rest) = false) as ->
    by (destruct p; reflexivity).
  cbn [is_empty]. rewrite fold_left_app, typePrefix_loop_dot.
  rewrite (typePrefix_loop_scan (c :: rest) [] true).
  cbn [is_empty negb app]. simpl spec_prefix_scan.
  rewrite Hu, Hd, Hn. cbn [negb andb app]. rewrite <- !app_assoc.
  reflexivity.
Qed.

(** [foo_bar.baz]: [FooBar_] followed by [Baz_]. *)
Lemma typePrefix_of_dotted_package_witness :
  typePrefixInternal (U := latin1) (go "foo_bar.baz") None
  = go "FooBar_" ++ go "Baz_".
Proof.
  exact (typePrefix_of_dotted_package latin1 (go "foo_bar") (go "az") 98
           eq_refl eq_refl eq_refl eq_refl).
Defined.

(** ** Generated names of siblings and of top-level messages *)

(** Messages declared under the same parent with different names get
    different generated identifiers, nested and at top level alike. *)
Theorem sibling_messages_do_not_collide (U : Unicode) :
  (forall (container : MessageDescriptor) (d1 d2 : DescriptorProto),
     msg_name d1 <> msg_name d2 ->
     fullNameOfMessage (NestedMessage container d1)
     <> fullNameOfMessage (NestedMessage container d2))
  /\ (forall (file : FileDescriptorProto) (d1 d2 : DescriptorProto),
        msg_name d1 <> msg_name d2 ->
        fullNameOfMessage (TopLevelMessage file d1)
        <> fullNameOfMessage (TopLevelMessage file d2)).
Proof.
  split.
  - intros container d1 d2 Hne H. simpl in H.
    apply app_inv_head in H. injection H as H.
    exact (Hne (sanitize_eq_inv Message _ _ H)).
  - intros file d1 d2 Hne H. simpl in H.
    apply (sanitize_eq_inv Message) in H.
    apply app_inv_head in H. exact (Hne H).
Qed.

(** [Type] and [TypeMessage] nested in [Outer]. *)
Lemma sibling_messages_do_not_collide_witness :
  go "Type" <> go "TypeMessage"
  /\ fullNameOfMessage (U := latin1)
       (NestedMessage example_Outer_descriptor (simple_message "Type" []))
     <> fullNameOfMessage (U := latin1)
          (NestedMessage example_Outer_descriptor
             (simple_message "TypeMessage" [])).
Proof.
  assert (go "Type" <> go "TypeMessage") as H by discriminate.
  split; [exact H|].
  exact (proj1 (sibling_messages_do_not_collide latin1)
           example_Outer_descriptor
           (simple_message "Type" []) (simple_message "TypeMessage" []) H).
Defined.

Section AsciiPackages.

Context {U : Unicode}.

(** The runes of a package path: letters, digits, underscores and dots. *)
Let package_rune (c : rune) : bool := is_word_rune c || (c =? dot_rune).

Lemma ascii_package_facts (c : rune) :
  is_word_rune c = true ->
  is_word_rune (unicode_ToUpper c) = true
  /\ (unicode_IsNumber c = false -> is_digit (unicode_ToUpper c) = false)
  /\ (is_digit c = true -> unicode_IsNumber c = true).
Proof.
  intros H. pose proof (word_rune_is_ascii c H) as Hc.
  assert (implb (is_word_rune c)
            (is_word_rune (unicode_ToUpper c)
             && implb (negb (unicode_IsNumber c))
                      (negb (is_digit (unicode_ToUpper c)))
             && implb (is_digit c) (unicode_IsNumber c)) = true) as F.
  { revert c Hc H. intros c Hc _. revert c Hc.
    apply ascii_forall. vm_compute. reflexivity. }
  rewrite H in F. simpl in F.
  apply andb_true_iff in F as [F F3]. apply andb_true_iff in F as [F1 F2].
  split; [exact F1|]. split.
  - intros Hn. rewrite Hn in F2. simpl in F2.
    apply negb_true_iff in F2. exact F2.
  - intros Hd. rewrite Hd in F3. exact F3.
Qed.

Lemma spec_prefix_scan_word_runes (package : gostring) :
  forallb package_rune package = true ->
  forall (start emitted : bool) (tail : gostring),
    forallb is_word_rune tail = true ->
    starts_with_digit tail = false ->
    forallb is_word_rune (spec_prefix_scan start emitted package ++ tail) = true
    /\ (emitted = false ->
        starts_with_digit (spec_prefix_scan start emitted package ++ tail)
        = false).
Proof.
  induction package as [|c rest IH]; intros Hp start emitted tail Ht Hd.
  - simpl. split; [exact Ht | intros _; exact Hd].
  - simpl in Hp. apply andb_true_iff in Hp as [Hc Hp]. simpl.
    destruct (c =? underscore_rune) eqn:Hu; [apply IH; assumption|].
    destruct (c =? dot_rune) eqn:Hdot.
    + destruct (IH Hp true true tail Ht Hd) as [H1 _].
      simpl. split; [exact H1 | reflexivity].
    + unfold package_rune in Hc. rewrite Hdot, orb_false_r in Hc.
      destruct (ascii_package_facts c Hc) as (Hup & Hnum & _).
      destruct (IH Hp false true tail Ht Hd) as [H1 _].
      assert (is_word_rune (if start then unicode_ToUpper c else c) = true)
        as Hw by (destruct start; assumption).
      destruct (negb emitted && unicode_IsNumber c) eqn:Hlead; simpl.
      * rewrite Hw, H1. split; reflexivity.
      * rewrite Hw, H1. split; [reflexivity|].
        intros ->. simpl in Hlead.
        destruct start; [exact (Hnum Hlead)|].
        destruct (is_digit c) eqn:Hdig; [|reflexivity].
        destruct (ascii_package_facts c Hc) as (_ & _ & Hn).
        rewrite (Hn Hdig) in Hlead. discriminate Hlead.
Qed.

End AsciiPackages.

(** For a package path made of letters, digits, underscores and dots, and
    no override, the derived prefix consists of letters, digits and
    underscores and does not start with a digit.  A top-level message
    whose name is made of letters, digits and underscores and does not
    start with a digit then gets a generated name that the program's
    classifier accepts as an identifier. *)
Theorem top_level_name_is_identifier (U : Unicode)
  (file : FileDescriptorProto) (decl : DescriptorProto) :
  file_options file = None ->
  forallb (fun c => is_word_rune c || (c =? dot_rune)) (file_package file)
  = true ->
  forallb is_word_rune (msg_name decl) = true ->
  starts_with_digit (msg_name decl) = false ->
  (forallb is_word_rune (typePrefix file) = true
   /\ starts_with_digit (typePrefix file) = false)
  /\ identifier_shaped (fullNameOfMessage (TopLevelMessage file decl)) = true.
Proof.
  intros Ho Hp Hn Hd.
  assert (forallb is_word_rune (typePrefix file ++ msg_name decl) = true
          /\ starts_with_digit (typePrefix file ++ msg_name decl) = false
          /\ forallb is_word_rune (typePrefix file) = true
          /\ starts_with_digit (typePrefix file) = false) as (H1 & H2 & H3 & H4).
  { unfold typePrefix. rewrite Ho, typePrefixInternal_None.
    destruct (is_empty (file_package file)); [repeat split; assumption|].
    rewrite typePrefix_loop_scan. cbn [is_empty negb app].
    destruct (file_package file) as [|c rest] eqn:Ep.
    - repeat split; assumption.
    - rewrite <- Ep in *. clear Ep c rest.
      destruct (spec_prefix_scan_word_runes (file_package file) Hp true false
                  [underscore_rune] eq_refl eq_refl) as [Ha Hb].
      destruct (spec_prefix_scan_word_runes (file_package file) Hp true false
                  (underscore_rune :: msg_name decl)) as [Hc Hd'];
        [simpl; exact Hn | reflexivity |].
      rewrite <- app_assoc. simpl app.
      repeat split; auto. }
  split; [split; assumption|].
  assert (forallb is_word_rune (go "Message") = true) as Hm by reflexivity.
  change (fullNameOfMessage (TopLevelMessage file decl))
    with (sanitize Message (typePrefix file ++ msg_name decl)).
  pose proof word_runes_identifier_shaped as Hshape.
  destruct (sanitize_shape Message (typePrefix file ++ msg_name decl))
    as [-> | ->]; apply Hshape; try assumption.
  - rewrite forallb_app, H1. exact Hm.
  - rewrite starts_with_digit_app.
    destruct (is_empty (typePrefix file ++ msg_name decl)); [reflexivity|].
    exact H2.
Qed.

(** Message [Type] in package [a.b2]. *)
Lemma top_level_name_is_identifier_witness :
  identifier_shaped
    (fullNameOfMessage (U := latin1)
       (TopLevelMessage (simple_file "a.b2" []) (simple_message "Type" [])))
  = true.
Proof.
  exact (proj2 (top_level_name_is_identifier latin1
                  (simple_file "a.b2" []) (simple_message "Type" [])
                  eq_refl eq_refl eq_refl eq_refl)).
Defined.

(** ** What the emitter writes *)

Lemma emit_messages_count {U : Unicode} (file : FileDescriptorProto)
  (decls : list DescriptorProto) :
  length (flat_map emit_message (map (TopLevelMessage file) decls))
  = (length decls
     + list_sum (map (fun d => length (oneof_decl d)) decls))%nat.
Proof.
  induction decls as [|d decls IH]; [reflexivity|].
  change (flat_map emit_message (map (TopLevelMessage file) (d :: decls)))
    with (emit_message (TopLevelMessage file d)
          ++ flat_map emit_message (map (TopLevelMessage file) decls)).
  rewrite length_app, IH. unfold emit_message, message_Oneofs.
  simpl. rewrite !length_map. lia.
Qed.

(** For every file the emitter writes, in declaration order: for each
    top-level message, the record of the message (its schema full name and
    the sanitized prefix-plus-name) followed by one record for each of its
    oneofs (the oneof's schema full name, and the message's identifier,
    [.OneOf_] and the CamelCase of the oneof's name); then one record for
    each top-level enum.  It writes nothing else, so the number of records
    is the number of those declarations. *)
Theorem emit_file_records (U : Unicode) (file : FileDescriptorProto) :
  emit_file file
  = flat_map
      (fun decl =>
         let full := FullName_Append (file_package file) (msg_name decl) in
         let ident := sanitizeMessage (typePrefix file ++ msg_name decl) in
         (full, ident)
         :: map (fun oneof =>
                   (FullName_Append full oneof,
                    ident ++ go ".OneOf_" ++ transform oneof true))
                (oneof_decl decl))
      (message_type file)
    ++ map (fun enum =>
              (FullName_Append (file_package file) enum,
               fullNameOfEnum (TopLevelEnum file enum)))
           (file_enum_type file)
  /\ length (emit_file file)
     = (length (message_type file)
        + list_sum (map (fun d => length (oneof_decl d)) (message_type file))
        + length (file_enum_type file))%nat.
Proof.
  split.
  - unfold emit_file, file_Messages, file_Enums.
    rewrite !flat_map_concat_map, !map_map.
    apply (f_equal (fun l => l ++ _)). apply f_equal.
    apply map_ext. intros decl.
    unfold emit_message, message_Oneofs. rewrite map_map. cbv zeta.
    apply f_equal. apply map_ext. intros oneof.
    unfold oneof_FullName, fullNameOfOneof, relativeNameOfOneof,
      toUpperCamelCase.
    cbn [oneof_parent oneof_name].
    change (sanitizeOneof (go "OneOf_" ++ transform oneof true))
      with (sanitize Oneof (go "OneOf_" ++ transform oneof true)).
    rewrite (sanitize_OneOf_prefix _ _ (Nat.le_refl _)). reflexivity.
  - unfold emit_file, file_Messages, file_Enums.
    rewrite length_app, emit_messages_count, !length_map. reflexivity.
Qed.
